(** * Jellyfin media source: catalogue browsing and stream resolution

    A shallow embedding of
    [homeassistant/components/jellyfin/media_source.py] and the
    properties of its tree builders, MIME resolver and stream resolver.

    Conventions of the embedding.
    - A catalogue item is a Python [dict] decoded from the server's JSON.
      Only the keys the module reads are kept, each as an optional field:
      [None] is "key absent".  [d[k]] is [getitem], which raises
      [KeyError]; [k in d] and [d.get(k)] are tests on the option.
      Values have the type the catalogue schema gives them ([Name] a string,
      [IndexNumber] an integer, ...).
    - Strings are byte strings (UTF-8); Python orders [str] by code point,
      which is the lexicographic order of the UTF-8 bytes.
    - [async]/[await] and [async_add_executor_job] only sequence blocking
      calls: a coroutine is the function it computes.
    - Exceptions are values of [exn] threaded by the [result] monad. *)

From Stdlib Require Import ZArith String Ascii Bool List.
From Stdlib Require Import Sorting.Sorted Sorting.Permutation.
From stdpp Require Import base option list gmap strings.

Local Open Scope string_scope.
Local Open Scope Z_scope.

(** ** Exceptions and the error monad *)

(** Keys looked up by subscription; the payload of [KeyError]. *)
Inductive key : Type :=
  | ITEM_KEY_COLLECTION_TYPE
  | ITEM_KEY_ID
  | ITEM_KEY_IMAGE_TAGS
  | ITEM_KEY_INDEX_NUMBER
  | ITEM_KEY_MEDIA_SOURCES
  | ITEM_KEY_MEDIA_TYPE
  | ITEM_KEY_NAME
  | KEY_TYPE                      (* the literal "Type" *)
  | KEY_ITEMS                     (* the literal "Items" *)
  | KEY_ENTRY (entry_id : string) (* data[self.entry.entry_id] *).

Inductive exn : Type :=
  | BrowseError (msg : string)
  | Unresolvable (msg : string)
  | KeyError (k : key)
  | AssertionError
  | ClientError (msg : string)    (* whatever the Jellyfin client raises *).

Inductive result (A : Type) : Type :=
  | Ok (a : A)
  | Err (e : exn).
Arguments Ok {A} a.
Arguments Err {A} e.

Definition bind {A B} (m : result A) (f : A -> result B) : result B :=
  match m with
  | Ok a => f a
  | Err e => Err e
  end.

Notation "x <-- m ;; k" := (bind m (fun x => k))
  (at level 100, m at next level, right associativity).

(** [[f x for x in xs]] where [f] may raise: left to right, first
    exception wins. *)
Fixpoint traverse {A B} (f : A -> result B) (xs : list A) : result (list B) :=
  match xs with
  | [] => Ok []
  | x :: xs' =>
      y <-- f x ;;
      ys <-- traverse f xs' ;;
      Ok (y :: ys)
  end.

(** [d[k]] on an optional field. *)
Definition getitem {A} (k : key) (field : option A) : result A :=
  match field with
  | Some v => Ok v
  | None => Err (KeyError k)
  end.

(** ** Data model *)

(** One entry of [MediaSources]. *)
Record MediaSourceInfo : Type := mkSource {
  Path : option string
}.

Record Item : Type := mkItem {
  Id : option string;
  Name : option string;
  Type_ : option string;
  CollectionType : option string;
  IndexNumber : option Z;
  MediaType : option string;
  ImageTags : option (gmap string string);
  MediaSources : option (list MediaSourceInfo)
}.

(** Response of a listing call: [{"Items": [...]}]. *)
Record Response : Type := mkResponse {
  Items : option (list Item)
}.

(** Query parameters of [user_items]. *)
Record Params : Type := mkParams {
  Recursive : string;
  ParentId : string;
  IncludeItemTypes : string;
  Fields : option key
}.

(** The part of [client.jellyfin] the module calls. *)
Record JellyfinClient : Type := mkClient {
  get_item : string -> result Item;
  get_media_folders : result Response;
  user_items : string -> Params -> result Response;
  audio_url : string -> string;
  video_url : string -> string;
  artwork : string -> string -> Z -> string
}.

Inductive MediaClass : Type :=
  | DIRECTORY | ARTIST | ALBUM | TRACK | MOVIE | TV_SHOW | SEASON | EPISODE.

#[warnings="-register-all"]
Inductive BrowseMediaSource : Type := mkBrowse {
  domain : string;
  identifier : option string;
  media_class : MediaClass;
  media_content_type : option string;
  title : string;
  can_play : bool;
  can_expand : bool;
  thumbnail : option string;
  children_media_class : option MediaClass;
  children : option (list BrowseMediaSource)
}.

Record PlayMedia : Type := mkPlayMedia {
  url : string;
  mime_type : string
}.

(** The request; an absent identifier arrives as the empty string. *)
Record MediaSourceItem : Type := mkMediaSourceItem {
  item_identifier : string
}.

Record JellyfinData : Type := mkJellyfinData {
  jellyfin_client : JellyfinClient
}.

(** [JellyfinSource]: [hass.data] and the config entry's id. *)
Record JellyfinSource : Type := mkJellyfinSource {
  hass_data : gmap string (gmap string JellyfinData);
  entry_id : string
}.

(** Attribute assignments [result.children_media_class = ...] and
    [result.children = ...]. *)
Definition set_children (cls : MediaClass) (cs : list BrowseMediaSource)
    (n : BrowseMediaSource) : BrowseMediaSource :=
  mkBrowse (domain n) (identifier n) (media_class n) (media_content_type n)
    (title n) (can_play n) (can_expand n) (thumbnail n) (Some cls) (Some cs).

(** ** Constants of [const.py] *)

(** Modelled from the spec: [const.py] is not among the sources; its string
    constants, the image width and the two lists are parameters. *)
Class Const : Type := mkConst {
  DOMAIN : string;
  COLLECTION_TYPE_MOVIES : string;
  COLLECTION_TYPE_MUSIC : string;
  ITEM_TYPE_ALBUM : string;
  ITEM_TYPE_ARTIST : string;
  ITEM_TYPE_AUDIO : string;
  ITEM_TYPE_EPISODE : string;
  ITEM_TYPE_LIBRARY : string;
  ITEM_TYPE_MOVIE : string;
  ITEM_TYPE_SEASON : string;
  ITEM_TYPE_SERIES : string;
  MAX_IMAGE_WIDTH : Z;
  MEDIA_TYPE_AUDIO : string;
  MEDIA_TYPE_NONE : string;
  MEDIA_TYPE_VIDEO : string;
  PLAYABLE_ITEM_TYPES : list string;
  SUPPORTED_COLLECTION_TYPES : list string
}.

(** ** Python's [sorted] with a key *)

Section Sorted.
Context {A K : Type} (lt : K -> K -> bool) (key_of : A -> K).

  (** [x] stood before every element of [l] in the input: it goes in front
      of the first element that is not smaller than it. *)
Fixpoint insert_stable (x : A) (l : list A) : list A :=
    match l with
    | [] => [x]
    | y :: l' =>
        if lt (key_of y) (key_of x) then y :: insert_stable x l'
        else x :: y :: l'
    end.

  (** [sorted(l, key=key_of)]: the stable sort of [l] by [lt] on keys. *)
Fixpoint sorted (l : list A) : list A :=
    match l with
    | [] => []
    | x :: l' => insert_stable x (sorted l')
    end.

  (** [a] may stand before [b]: the key of [b] is not smaller. *)
Definition key_le (a b : A) : Prop := lt (key_of b) (key_of a) = false.

  (** The elements whose key is [k]. *)
Definition has_key `{EqDecision K} (k : K) (a : A) : bool :=
    bool_decide (key_of a = k).
End Sorted.
Arguments has_key {A K} key_of {_} k a.

(** [<] on [bool]: [False < True]. *)
Definition bool_lt (a b : bool) : bool := negb a && b.

(** [<] on the second component of a key.  With equal first components
    both are present or both are [None]; two [None]s are equal and never
    compared. *)
Definition opt_lt {V} (ltV : V -> V -> bool) (a b : option V) : bool :=
  match a, b with
  | Some x, Some y => ltV x y
  | _, _ => false
  end.

(** [<] on the tuples [(field not in k, k.get(field))]: the first
    component that differs decides. *)
Definition tuple_lt {V} (ltV : V -> V -> bool) (a b : bool * option V) : bool :=
  if Bool.eqb (fst a) (fst b) then opt_lt ltV (snd a) (snd b)
  else bool_lt (fst a) (fst b).

(** [lambda k: (ITEM_KEY_NAME not in k, k.get(ITEM_KEY_NAME))] *)
Definition name_key (k : Item) : bool * option string :=
  (negb (bool_decide (is_Some (Name k))), Name k).

(** [lambda k: (ITEM_KEY_INDEX_NUMBER not in k, k.get(ITEM_KEY_INDEX_NUMBER))] *)
Definition index_key (k : Item) : bool * option Z :=
  (negb (bool_decide (is_Some (IndexNumber k))), IndexNumber k).

(** [field in k] *)
Definition has_field {V} (field : Item -> option V) (k : Item) : bool :=
  bool_decide (is_Some (field k)).

Definition sorted_by_name : list Item -> list Item :=
  sorted (tuple_lt String.ltb) name_key.

Definition sorted_by_index : list Item -> list Item :=
  sorted (tuple_lt Z.ltb) index_key.

(** The sort policy of the builders for one field, stated of a sorting
    function [srt]: the items with the field come first, ascending by its
    value; the items without it follow in their original order; the result
    is a rearrangement of the input that keeps items of equal value in
    their original order. *)
Definition sort_policy {V} `{EqDecision V} (ltV : V -> V -> bool)
    (field : Item -> option V) (srt : list Item -> list Item) : Prop :=
  forall l : list Item,
    srt l = (srt (List.filter (has_field field) l)
             ++ List.filter (fun k => negb (has_field field k)) l)%list
    /\ StronglySorted
         (fun a b => forall u v, field a = Some u -> field b = Some v ->
                                 ltV v u = false)
         (srt (List.filter (has_field field) l))
    /\ Permutation (srt l) l
    /\ (forall v : option V,
          List.filter (fun k => bool_decide (field k = v)) (srt l)
          = List.filter (fun k => bool_decide (field k = v)) l).

(** The albums of the example: named "B", unnamed, named "A". *)
Definition album_B : Item :=
  mkItem (Some "1") (Some "B") None None None None (Some ∅) None.
Definition album_unnamed : Item :=
  mkItem (Some "2") None None None None None (Some ∅) None.
Definition album_A : Item :=
  mkItem (Some "3") (Some "A") None None None None (Some ∅) None.

(** ** The module *)

Section MediaSource.
Context `{Const}.

  (** [mimetypes.guess_type(path)[0]] of the Python standard library: the
      filename-to-MIME mapping, external to the module. *)
Variable guess_type : string -> option string.

Definition _media_mime_type (media_item : Item) : option string :=
    match MediaSources media_item with
    | None | Some [] => None
    | Some (media_source :: _) =>
        match Path media_source with
        | None => None
        | Some path => guess_type path
        end
    end.

  (** The [client] property. *)
Definition client (self : JellyfinSource) : result (option JellyfinClient) :=
    match hass_data self !! DOMAIN with
    | Some data =>
        if decide (size data = 0%nat) then Ok None
        else
          jellyfin_data <-- getitem (KEY_ENTRY (entry_id self))
                                    (data !! entry_id self) ;;
          Ok (Some (jellyfin_client jellyfin_data))
    | None => Ok None
    end.

Definition _get_children (client : JellyfinClient)
      (parent_id item_type : string) : result (list Item) :=
    let params :=
      mkParams "true" parent_id item_type
        (if bool_decide (item_type ∈ PLAYABLE_ITEM_TYPES)
         then Some ITEM_KEY_MEDIA_SOURCES else None) in
    result <-- user_items client "" params ;;
    getitem KEY_ITEMS (Items result).

Definition _get_thumbnail_url (client : JellyfinClient)
      (media_item : Item) : result (option string) :=
    image_tags <-- getitem ITEM_KEY_IMAGE_TAGS (ImageTags media_item) ;;
    if negb (bool_decide (is_Some (image_tags !! "Primary"))) then Ok None
    else
      item_id <-- getitem ITEM_KEY_ID (Id media_item) ;;
      Ok (Some (artwork client item_id "Primary" MAX_IMAGE_WIDTH)).

Definition _get_stream_url (client : JellyfinClient)
      (media_item : Item) : result string :=
    media_type <-- getitem ITEM_KEY_MEDIA_TYPE (MediaType media_item) ;;
    item_id <-- getitem ITEM_KEY_ID (Id media_item) ;;
    if String.eqb media_type MEDIA_TYPE_AUDIO then Ok (audio_url client item_id)
    else if String.eqb media_type MEDIA_TYPE_VIDEO then Ok (video_url client item_id)
    else Err (BrowseError ("Unsupported media type " ++ media_type)).

  (** *** Music *)

Definition _build_track (client : JellyfinClient) (track : Item)
      : result BrowseMediaSource :=
    track_id <-- getitem ITEM_KEY_ID (Id track) ;;
    track_title <-- getitem ITEM_KEY_NAME (Name track) ;;
    let mime_type := _media_mime_type track in
    thumbnail_url <-- _get_thumbnail_url client track ;;
    Ok (mkBrowse DOMAIN (Some track_id) TRACK mime_type track_title
          true false thumbnail_url None None).

Definition _build_tracks (client : JellyfinClient) (album_id : string)
      : result (list BrowseMediaSource) :=
    tracks <-- _get_children client album_id ITEM_TYPE_AUDIO ;;
    let tracks := sorted_by_index tracks in
    traverse (_build_track client)
      (List.filter (fun track => bool_decide (is_Some (_media_mime_type track)))
         tracks).

Definition _build_album (client : JellyfinClient) (album : Item)
      (include_children : bool) : result BrowseMediaSource :=
    album_id <-- getitem ITEM_KEY_ID (Id album) ;;
    album_title <-- getitem ITEM_KEY_NAME (Name album) ;;
    thumbnail_url <-- _get_thumbnail_url client album ;;
    let result :=
      mkBrowse DOMAIN (Some album_id) ALBUM (Some MEDIA_TYPE_NONE) album_title
        false true thumbnail_url None None in
    if include_children then
      children <-- _build_tracks client album_id ;;
      Ok (set_children TRACK children result)
    else Ok result.

Definition _build_albums (client : JellyfinClient) (parent_id : string)
      : result (list BrowseMediaSource) :=
    albums <-- _get_children client parent_id ITEM_TYPE_ALBUM ;;
    let albums := sorted_by_name albums in
    traverse (fun album => _build_album client album false) albums.

Definition _build_artist (client : JellyfinClient) (artist : Item)
      (include_children : bool) : result BrowseMediaSource :=
    artist_id <-- getitem ITEM_KEY_ID (Id artist) ;;
    artist_name <-- getitem ITEM_KEY_NAME (Name artist) ;;
    thumbnail_url <-- _get_thumbnail_url client artist ;;
    let result :=
      mkBrowse DOMAIN (Some artist_id) ARTIST (Some MEDIA_TYPE_NONE) artist_name
        false true thumbnail_url None None in
    if include_children then
      children <-- _build_albums client artist_id ;;
      Ok (set_children ALBUM children result)
    else Ok result.

Definition _build_artists (client : JellyfinClient) (library_id : string)
      : result (list BrowseMediaSource) :=
    artists <-- _get_children client library_id ITEM_TYPE_ARTIST ;;
    let artists := sorted_by_name artists in
    traverse (fun artist => _build_artist client artist false) artists.

Definition _build_music_library (client : JellyfinClient) (library : Item)
      (include_children : bool) : result BrowseMediaSource :=
    library_id <-- getitem ITEM_KEY_ID (Id library) ;;
    library_name <-- getitem ITEM_KEY_NAME (Name library) ;;
    let result :=
      mkBrowse DOMAIN (Some library_id) DIRECTORY (Some MEDIA_TYPE_NONE)
        library_name false true None None None in
    if include_children then
      children <-- _build_artists client library_id ;;
      match children with
      | [] =>
          children <-- _build_albums client library_id ;;
          Ok (set_children ALBUM children result)
      | _ :: _ => Ok (set_children ARTIST children result)
      end
    else Ok result.

  (** *** Movies *)

Definition _build_movie (client : JellyfinClient) (movie : Item)
      : result BrowseMediaSource :=
    movie_id <-- getitem ITEM_KEY_ID (Id movie) ;;
    movie_title <-- getitem ITEM_KEY_NAME (Name movie) ;;
    let mime_type := _media_mime_type movie in
    thumbnail_url <-- _get_thumbnail_url client movie ;;
    Ok (mkBrowse DOMAIN (Some movie_id) MOVIE mime_type movie_title
          true false thumbnail_url None None).

Definition _build_movies (client : JellyfinClient) (library_id : string)
      : result (list BrowseMediaSource) :=
    movies <-- _get_children client library_id ITEM_TYPE_MOVIE ;;
    let movies := sorted_by_name movies in
    traverse (_build_movie client)
      (List.filter (fun movie => bool_decide (is_Some (_media_mime_type movie)))
         movies).

Definition _build_movie_library (client : JellyfinClient) (library : Item)
      (include_children : bool) : result BrowseMediaSource :=
    library_id <-- getitem ITEM_KEY_ID (Id library) ;;
    library_name <-- getitem ITEM_KEY_NAME (Name library) ;;
    let result :=
      mkBrowse DOMAIN (Some library_id) DIRECTORY (Some MEDIA_TYPE_NONE)
        library_name false true None None None in
    if include_children then
      children <-- _build_movies client library_id ;;
      Ok (set_children MOVIE children result)
    else Ok result.

  (** *** Series *)

Definition _build_episode (client : JellyfinClient) (episode : Item)
      : result BrowseMediaSource :=
    episode_id <-- getitem ITEM_KEY_ID (Id episode) ;;
    episode_title <-- getitem ITEM_KEY_NAME (Name episode) ;;
    let mime_type := _media_mime_type episode in
    thumbnail_url <-- _get_thumbnail_url client episode ;;
    Ok (mkBrowse DOMAIN (Some episode_id) EPISODE mime_type episode_title
          true false thumbnail_url None None).

Definition _build_episodes (client : JellyfinClient) (season_id : string)
      : result (list BrowseMediaSource) :=
    episodes <-- _get_children client season_id ITEM_TYPE_EPISODE ;;
    let episodes := sorted_by_index episodes in
    traverse (_build_episode client)
      (List.filter
         (fun episode => bool_decide (is_Some (_media_mime_type episode)))
         episodes).

Definition _build_season (client : JellyfinClient) (season : Item)
      (include_children : bool) : result BrowseMediaSource :=
    season_id <-- getitem ITEM_KEY_ID (Id season) ;;
    season_title <-- getitem ITEM_KEY_NAME (Name season) ;;
    thumbnail_url <-- _get_thumbnail_url client season ;;
    let result :=
      mkBrowse DOMAIN (Some season_id) TV_SHOW (Some MEDIA_TYPE_NONE)
        season_title false true thumbnail_url None None in
    if include_children then
      children <-- _build_episodes client season_id ;;
      Ok (set_children EPISODE children result)
    else Ok result.

Definition _build_seasons (client : JellyfinClient) (series_id : string)
      : result (list BrowseMediaSource) :=
    seasons <-- _get_children client series_id ITEM_TYPE_SEASON ;;
    let seasons := sorted_by_index seasons in
    traverse (fun season => _build_season client season false) seasons.

Definition _build_series (client : JellyfinClient) (series : Item)
      (include_children : bool) : result BrowseMediaSource :=
    series_id <-- getitem ITEM_KEY_ID (Id series) ;;
    series_title <-- getitem ITEM_KEY_NAME (Name series) ;;
    thumbnail_url <-- _get_thumbnail_url client series ;;
    let result :=
      mkBrowse DOMAIN (Some series_id) TV_SHOW (Some MEDIA_TYPE_NONE)
        series_title false true thumbnail_url None None in
    if include_children then
      children <-- _build_seasons client series_id ;;
      Ok (set_children SEASON children result)
    else Ok result.

Definition _build_tvshow (client : JellyfinClient) (library_id : string)
      : result (list BrowseMediaSource) :=
    series <-- _get_children client library_id ITEM_TYPE_SERIES ;;
    let series := sorted_by_name series in
    traverse (fun serie => _build_series client serie false) series.

Definition _build_tv_library (client : JellyfinClient) (library : Item)
      (include_children : bool) : result BrowseMediaSource :=
    library_id <-- getitem ITEM_KEY_ID (Id library) ;;
    library_name <-- getitem ITEM_KEY_NAME (Name library) ;;
    let result :=
      mkBrowse DOMAIN (Some library_id) DIRECTORY (Some MEDIA_TYPE_NONE)
        library_name false true None None None in
    if include_children then
      children <-- _build_tvshow client library_id ;;
      Ok (set_children TV_SHOW children result)
    else Ok result.

  (** *** Libraries and the two entry points *)

Definition _build_library (client : JellyfinClient) (library : Item)
      (include_children : bool) : result BrowseMediaSource :=
    collection_type <-- getitem ITEM_KEY_COLLECTION_TYPE (CollectionType library) ;;
    if String.eqb collection_type COLLECTION_TYPE_MUSIC then
      _build_music_library client library include_children
    else if String.eqb collection_type COLLECTION_TYPE_MOVIES then
      _build_movie_library client library include_children
    else _build_tv_library client library include_children.

  (** The test of [_get_libraries]: the key is present and its value is in
      the supported list. *)
Definition supported_library (library : Item) : bool :=
    match CollectionType library with
    | Some collection_type =>
        bool_decide (collection_type ∈ SUPPORTED_COLLECTION_TYPES)
    | None => false
    end.

Definition _get_libraries (client : JellyfinClient) : result (list Item) :=
    response <-- get_media_folders client ;;
    libraries <-- getitem KEY_ITEMS (Items response) ;;
    Ok (List.filter supported_library libraries).

  (** [JellyfinSource.name] *)
Definition name : string := "Jellyfin".

Definition _build_libraries (client : JellyfinClient)
      : result BrowseMediaSource :=
    let base :=
      mkBrowse DOMAIN None DIRECTORY (Some MEDIA_TYPE_NONE) name
        false true None (Some DIRECTORY) None in
    libraries <-- _get_libraries client ;;
    children <-- traverse (fun library => _build_library client library false)
                   libraries ;;
    Ok (set_children DIRECTORY children base).

Definition async_browse_media (self : JellyfinSource) (item : MediaSourceItem)
      : result BrowseMediaSource :=
    client <-- client self ;;
    match client with
    | None => Err (BrowseError "Jellyfin not initialized")
    | Some client =>
        if String.eqb (item_identifier item) "" then _build_libraries client
        else
          media_item <-- get_item client (item_identifier item) ;;
          item_type <-- getitem KEY_TYPE (Type_ media_item) ;;
          if String.eqb item_type ITEM_TYPE_LIBRARY then
            _build_library client media_item true
          else if String.eqb item_type ITEM_TYPE_ARTIST then
            _build_artist client media_item true
          else if String.eqb item_type ITEM_TYPE_ALBUM then
            _build_album client media_item true
          else if String.eqb item_type ITEM_TYPE_SERIES then
            _build_series client media_item true
          else if String.eqb item_type ITEM_TYPE_SEASON then
            _build_season client media_item true
          else Err (BrowseError ("Unsupported item type " ++ item_type))
    end.

Definition async_resolve_media (self : JellyfinSource) (item : MediaSourceItem)
      : result PlayMedia :=
    client <-- client self ;;
    match client with
    | None => Err (Unresolvable "Jellyfin not initialized")
    | Some client =>
        media_item <-- get_item client (item_identifier item) ;;
        stream_url <-- _get_stream_url client media_item ;;
        match _media_mime_type media_item with
        | None => Err AssertionError
        | Some mime_type => Ok (mkPlayMedia stream_url mime_type)
        end
    end.

End MediaSource.

(** ** Statement vocabulary *)

(** The item is kept by the filter of the leaf builders. *)
Definition playable (guess_type : string -> option string) (item : Item) : bool :=
  bool_decide (is_Some (_media_mime_type guess_type item)).

(** The three leaf-type children lists. *)
Inductive leaf_kind : Type := Tracks | Movies | Episodes.

Definition build_leaves `{Const} (guess_type : string -> option string)
    (kind : leaf_kind) : JellyfinClient -> string -> result (list BrowseMediaSource) :=
  match kind with
  | Tracks => _build_tracks guess_type
  | Movies => _build_movies guess_type
  | Episodes => _build_episodes guess_type
  end.

Definition leaf_item_type `{Const} (kind : leaf_kind) : string :=
  match kind with
  | Tracks => ITEM_TYPE_AUDIO
  | Movies => ITEM_TYPE_MOVIE
  | Episodes => ITEM_TYPE_EPISODE
  end.

Definition leaf_sorted (kind : leaf_kind) : list Item -> list Item :=
  match kind with
  | Tracks => sorted_by_index
  | Movies => sorted_by_name
  | Episodes => sorted_by_index
  end.

(** The four children lists of container nodes. *)
Inductive container_kind : Type := Artists | Albums | Shows | Seasons.

Definition build_containers `{Const} (guess_type : string -> option string)
    (kind : container_kind)
    : JellyfinClient -> string -> result (list BrowseMediaSource) :=
  match kind with
  | Artists => _build_artists guess_type
  | Albums => _build_albums guess_type
  | Shows => _build_tvshow guess_type
  | Seasons => _build_seasons guess_type
  end.

Definition container_item_type `{Const} (kind : container_kind) : string :=
  match kind with
  | Artists => ITEM_TYPE_ARTIST
  | Albums => ITEM_TYPE_ALBUM
  | Shows => ITEM_TYPE_SERIES
  | Seasons => ITEM_TYPE_SEASON
  end.

(** The item has the keys every node constructor subscripts. *)
Definition buildable (item : Item) : Prop :=
  is_Some (Id item) /\ is_Some (Name item) /\ is_Some (ImageTags item).

(** What a leaf constructor makes of [item]: a playable node of class
    [cls] whose content type is the resolver's result. *)
Definition leaf_node (guess_type : string -> option string) (cls : MediaClass)
    (item : Item) (n : BrowseMediaSource) : Prop :=
  identifier n = Id item /\ Some (title n) = Name item /\ media_class n = cls
  /\ media_content_type n = _media_mime_type guess_type item
  /\ can_play n = true /\ can_expand n = false
  /\ children n = None /\ children_media_class n = None.

(** What a container constructor makes of [item] without its children. *)
Definition container_node `{Const} (cls : MediaClass)
    (item : Item) (n : BrowseMediaSource) : Prop :=
  identifier n = Id item /\ Some (title n) = Name item /\ media_class n = cls
  /\ media_content_type n = Some MEDIA_TYPE_NONE
  /\ can_play n = false /\ can_expand n = true
  /\ children n = None /\ children_media_class n = None.

Definition leaf_class (kind : leaf_kind) : MediaClass :=
  match kind with
  | Tracks => TRACK
  | Movies => MOVIE
  | Episodes => EPISODE
  end.

(** [s.endswith(suffix)] *)
Definition ends_with (suffix s : string) : bool :=
  let n := String.length s in
  let m := String.length suffix in
  (m <=? n)%nat && String.eqb (String.substring (n - m) m s) suffix.


(** ** A sample installation, for examples *)

(** Modelled from the spec: [const.py] is not among the sources; these are
    sample values for its constants, pairwise distinct where the spec's
    enumerations are. *)
Definition sample_const : Const :=
  mkConst "jellyfin" "movies" "music" "MusicAlbum" "MusicArtist" "Audio"
    "Episode" "CollectionFolder" "Movie" "Season" "Series" 500
    "Audio" "" "Video" ["Audio"; "Episode"; "Movie"]
    ["music"; "movies"; "tvshows"].

(** Modelled from the spec: two entries of the filename-to-MIME mapping,
    the ones the spec names, for the examples of the builders; the mapping
    the module calls is the Python standard library's, embedded further
    down as [mimetypes_guess_type]. *)
Definition sample_guess_type (path : string) : option string :=
  if ends_with ".mp3" path then Some "audio/mpeg"
  else if ends_with ".mp4" path then Some "video/mp4"
  else None.

Definition music_library : Item :=
  mkItem (Some "lib1") (Some "Music") (Some "CollectionFolder") (Some "music")
    None None (Some ∅) None.
Definition photo_library : Item :=
  mkItem (Some "lib2") (Some "Photos") (Some "CollectionFolder") (Some "photos")
    None None (Some ∅) None.
Definition mixed_library : Item :=
  mkItem (Some "lib3") (Some "Mixed") (Some "CollectionFolder") None
    None None (Some ∅) None.
Definition artist_1 : Item :=
  mkItem (Some "artist1") (Some "Band") (Some "MusicArtist") None
    None None (Some ∅) None.
Definition album_1 : Item :=
  mkItem (Some "album1") (Some "First") (Some "MusicAlbum") None
    None None (Some ∅) None.
Definition track_1 : Item :=
  mkItem (Some "track1") (Some "Song") (Some "Audio") None
    (Some 1) (Some "Audio") (Some ∅) (Some [mkSource (Some "/music/song.mp3")]).
(** A track without a name and without media sources. *)
Definition track_bare : Item :=
  mkItem (Some "track2") None (Some "Audio") None
    None (Some "Audio") (Some ∅) None.
Definition movie_1 : Item :=
  mkItem (Some "movie1") (Some "Film") (Some "Movie") None
    None (Some "Video") (Some ∅) (Some [mkSource (Some "/films/film.mp4")]).
Definition series_1 : Item :=
  mkItem (Some "series1") (Some "Show") (Some "Series") None
    None None (Some ∅) None.
Definition season_1 : Item :=
  mkItem (Some "season1") (Some "Season 1") (Some "Season") None
    (Some 1) None (Some ∅) None.
(** An item whose media type is neither audio nor video, without sources. *)
Definition photo_1 : Item :=
  mkItem (Some "photo1") (Some "Picture") (Some "Photo") None
    None (Some "Photo") (Some ∅) None.
(** The same without id. *)
Definition anonymous_photo : Item :=
  mkItem None (Some "Picture") (Some "Photo") None
    None (Some "Photo") (Some ∅) None.

Definition sample_client : JellyfinClient :=
  mkClient
    (fun id =>
       if String.eqb id "lib1" then Ok music_library
       else if String.eqb id "artist1" then Ok artist_1
       else if String.eqb id "album1" then Ok album_1
       else if String.eqb id "track1" then Ok track_1
       else if String.eqb id "track2" then Ok track_bare
       else if String.eqb id "movie1" then Ok movie_1
       else if String.eqb id "series1" then Ok series_1
       else if String.eqb id "season1" then Ok season_1
       else if String.eqb id "photo1" then Ok photo_1
       else Err (ClientError "item not found"))
    (Ok (mkResponse (Some [music_library; photo_library; mixed_library])))
    (fun _ params =>
       let parent := ParentId params in
       let type := IncludeItemTypes params in
       if String.eqb parent "lib1" && String.eqb type "MusicAlbum"
       then Ok (mkResponse (Some [album_B; album_A]))
       else if String.eqb parent "artist1" && String.eqb type "MusicAlbum"
       then Ok (mkResponse (Some [album_B; album_unnamed; album_A]))
       else if String.eqb parent "album1" && String.eqb type "Audio"
       then Ok (mkResponse (Some [track_bare; track_1]))
       else if String.eqb parent "series1" && String.eqb type "Season"
       then Ok (mkResponse (Some [season_1]))
       else Ok (mkResponse (Some [])))
    (fun id => "/Audio/" ++ id ++ "/stream")
    (fun id => "/Videos/" ++ id ++ "/stream")
    (fun id kind _ => "/Items/" ++ id ++ "/Images/" ++ kind).

Definition sample_source : JellyfinSource :=
  mkJellyfinSource
    {[ "jellyfin" := {[ "entry1" := mkJellyfinData sample_client ]} ]}
    "entry1".

(** A source whose integration data is absent. *)
Definition uninitialized_source : JellyfinSource :=
  mkJellyfinSource ∅ "entry1".

(** ** Vocabulary of the further properties *)

(** The classes of the playable leaves. *)
Definition is_leaf_class (cls : MediaClass) : bool :=
  match cls with
  | TRACK | MOVIE | EPISODE => true
  | _ => false
  end.

(** The shape every node of the module has: of this domain, playable or
    expandable but not both, playable exactly when a leaf, and with the
    empty content type when not playable. *)
Definition node_ok `{Const} (n : BrowseMediaSource) : Prop :=
  domain n = DOMAIN
  /\ can_play n = negb (can_expand n)
  /\ can_play n = is_leaf_class (media_class n)
  /\ (can_play n = false -> media_content_type n = Some MEDIA_TYPE_NONE).

(** A node of a children list: a well-shaped node with an identifier and
    without children of its own. *)
Definition child_ok `{Const} (n : BrowseMediaSource) : Prop :=
  node_ok n /\ is_Some (identifier n)
  /\ children n = None /\ children_media_class n = None.

(** The class of the children a parent announces as [cls]: the announced
    class, except that the seasons of a series are built with the class of
    a show. *)
Definition built_class (cls : MediaClass) : MediaClass :=
  match cls with
  | SEASON => TV_SHOW
  | _ => cls
  end.

(** What [browse] returns: a well-shaped node that announces a class for
    its children and carries their list, one level deep, each child of
    the class built for the announced one. *)
Definition tree_ok `{Const} (node : BrowseMediaSource) : Prop :=
  node_ok node
  /\ exists cls nodes,
       children_media_class node = Some cls
       /\ children node = Some nodes
       /\ Forall child_ok nodes
       /\ Forall (fun n => media_class n = built_class cls) nodes.

(** The titles of the nodes are in ascending order. *)
Definition titles_ascending (nodes : list BrowseMediaSource) : Prop :=
  StronglySorted (fun a b => String.ltb (title b) (title a) = false) nodes.

(** The exception [e] is one the client raised. *)
Definition client_raised (c : JellyfinClient) (e : exn) : Prop :=
  (exists id, get_item c id = Err e)
  \/ get_media_folders c = Err e
  \/ (exists handler params, user_items c handler params = Err e).

(** The thumbnail of an item with the tags [tags] and the id [item_id]. *)
Definition thumbnail_of `{Const} (c : JellyfinClient)
    (tags : gmap string string) (item_id : string) : option string :=
  if bool_decide (is_Some (tags !! "Primary"))
  then Some (artwork c item_id "Primary" MAX_IMAGE_WIDTH)
  else None.

(** Further items of the sample catalogue. *)
Definition movie_library : Item :=
  mkItem (Some "lib4") (Some "Films") (Some "CollectionFolder") (Some "movies")
    None None (Some ∅) None.
Definition movie_bare : Item :=
  mkItem (Some "movie2") (Some "Lost") (Some "Movie") None
    None (Some "Video") (Some ∅) (Some []).
Definition episode_1 : Item :=
  mkItem (Some "episode1") (Some "Pilot") (Some "Episode") None
    (Some 1) (Some "Video")
    (Some {[ "Primary" := "tag1" ]})
    (Some [mkSource (Some "/shows/pilot.mp4")]).
(** An item without image tags. *)
Definition untagged_item : Item :=
  mkItem (Some "bare1") (Some "Bare") (Some "MusicAlbum") None
    None None None None.
(** An item without id whose image tags have no primary image. *)
Definition anonymous_item : Item :=
  mkItem None (Some "Nameless") (Some "MusicAlbum") None
    None None (Some ∅) None.

(** An item without type. *)
Definition typeless_item : Item :=
  mkItem (Some "odd1") (Some "Odd") None None None None (Some ∅) None.

(** The sample client with a larger catalogue: the photo and the movie
    library can be fetched, the movie library has two movies, the photo
    library a series, the season an episode. *)
Definition large_client : JellyfinClient :=
  mkClient
    (fun id =>
       if String.eqb id "odd1" then Ok typeless_item
       else if String.eqb id "lib2" then Ok photo_library
       else if String.eqb id "lib3" then Ok mixed_library
       else if String.eqb id "lib4" then Ok movie_library
       else if String.eqb id "episode1" then Ok episode_1
       else get_item sample_client id)
    (Ok (mkResponse
           (Some [music_library; photo_library; movie_library; mixed_library])))
    (fun handler params =>
       let parent := ParentId params in
       let type := IncludeItemTypes params in
       if String.eqb parent "lib4" && String.eqb type "Movie"
       then Ok (mkResponse (Some [movie_bare; movie_1]))
       else if String.eqb parent "lib2" && String.eqb type "Series"
       then Ok (mkResponse (Some [series_1]))
       else if String.eqb parent "season1" && String.eqb type "Episode"
       then Ok (mkResponse (Some [episode_1]))
       else user_items sample_client handler params)
    (audio_url sample_client)
    (video_url sample_client)
    (artwork sample_client).

Definition large_source : JellyfinSource :=
  mkJellyfinSource
    {[ "jellyfin" := {[ "entry1" := mkJellyfinData large_client ]} ]}
    "entry1".

(** A client whose server is unreachable: every call raises. *)
Definition failing_client : JellyfinClient :=
  mkClient
    (fun _ => Err (ClientError "connection refused"))
    (Err (ClientError "connection refused"))
    (fun _ _ => Err (ClientError "connection refused"))
    (audio_url sample_client)
    (video_url sample_client)
    (artwork sample_client).

Definition failing_source : JellyfinSource :=
  mkJellyfinSource
    {[ "jellyfin" := {[ "entry1" := mkJellyfinData failing_client ]} ]}
    "entry1".

(** A client that lists the folders of the sample catalogue and raises on
    every other call. *)
Definition folders_only_client : JellyfinClient :=
  mkClient
    (fun _ => Err (ClientError "connection refused"))
    (get_media_folders sample_client)
    (fun _ _ => Err (ClientError "connection refused"))
    (fun _ => "")
    (fun _ => "")
    (fun _ _ _ => "").

(** A source whose integration data has no record for its entry. *)
Definition stale_source : JellyfinSource :=
  mkJellyfinSource
    {[ "jellyfin" := {[ "entry0" := mkJellyfinData sample_client ]} ]}
    "entry1".

(** ** The filename-to-MIME mapping of the Python standard library *)

(** [mimetypes.guess_type(path)[0]], which [_media_mime_type] calls, is not
    part of the repository: it is embedded here from [Lib/mimetypes.py],
    [Lib/genericpath.py] and [Lib/urllib/parse.py] of CPython 3.11.  The
    table of types is filled from the system's files when the library is
    initialised and is a parameter; the tables of suffixes and of
    encodings are the library's own.  [str.lower] is modelled on the ASCII
    letters and leaves every other byte as it is. *)

(** [s.rfind(ch)]: the index of the last [ch], -1 if there is none. *)
Fixpoint str_rfind (ch : ascii) (s : string) : Z :=
  match s with
  | EmptyString => -1
  | String a s' =>
      let r := str_rfind ch s' in
      if 0 <=? r then r + 1
      else if Ascii.eqb a ch then 0 else -1
  end.



Fixpoint str_take (n : nat) (s : string) : string :=
  match n, s with
  | S n', String a s' => String a (str_take n' s')
  | _, _ => EmptyString
  end.

Fixpoint str_drop (n : nat) (s : string) : string :=
  match n, s with
  | S n', String _ s' => str_drop n' s'
  | _, _ => s
  end.

(** [s[lo:hi]] for [0 <= lo <= hi]. *)
Definition str_slice (lo hi : Z) (s : string) : string :=
  str_take (Z.to_nat (hi - lo)) (str_drop (Z.to_nat lo) s).

(** [s[lo:]] for [0 <= lo]. *)
Definition str_from (lo : Z) (s : string) : string := str_drop (Z.to_nat lo) s.

Definition ascii_lower (a : ascii) : ascii :=
  let n := N_of_ascii a in
  if ((65 <=? n) && (n <=? 90))%N then ascii_of_N (n + 32) else a.

(** [s.lower()] *)
Fixpoint str_lower (s : string) : string :=
  match s with
  | EmptyString => EmptyString
  | String a s' => String (ascii_lower a) (str_lower s')
  end.

(** The loop of [genericpath._splitext] that skips the leading dots of the
    last component: [n] is the number of indices left before [dotIndex]. *)
Fixpoint skip_leading_dots (n : nat) (p : string) (filenameIndex dotIndex : Z)
    : string * string :=
  match n with
  | O => (p, "")
  | S n' =>
      if negb (String.eqb (str_slice filenameIndex (filenameIndex + 1) p) ".")
      then (str_slice 0 dotIndex p, str_from dotIndex p)
      else skip_leading_dots n' p (filenameIndex + 1) dotIndex
  end.

(** [posixpath.splitext(p)]: the extension is everything from the last
    dot of the last component, leading dots not counting. *)
Definition splitext (p : string) : string * string :=
  let sepIndex := str_rfind "/" p in
  let dotIndex := str_rfind "." p in
  if sepIndex <? dotIndex then
    skip_leading_dots (Z.to_nat (dotIndex - (sepIndex + 1))) p
      (sepIndex + 1) dotIndex
  else (p, "").



Definition suffix_map (ext : string) : option string :=
  if String.eqb ext ".svgz" then Some ".svg.gz"
  else if String.eqb ext ".tgz" then Some ".tar.gz"
  else if String.eqb ext ".taz" then Some ".tar.gz"
  else if String.eqb ext ".tz" then Some ".tar.gz"
  else if String.eqb ext ".tbz2" then Some ".tar.bz2"
  else if String.eqb ext ".txz" then Some ".tar.xz"
  else None.


(** [while (ext_lower := ext.lower()) in self.suffix_map: ...]; [fuel]
    bounds the number of rounds. *)
Fixpoint suffix_loop (fuel : nat) (base ext : string) : string * string :=
  match fuel with
  | O => (base, ext)
  | S fuel' =>
      match suffix_map (str_lower ext) with
      | Some replacement =>
          let '(base', ext') := splitext (base ++ replacement) in
          suffix_loop fuel' base' ext'
      | None => (base, ext)
      end
  end.





(** The last component has a character that is not a dot, and no slash. *)
Definition has_stem (name : string) : Prop :=
  str_rfind "/" name = -1
  /\ exists front ch back,
       name = front ++ String ch back /\ ch <> "."%char.


(** * Properties *)

(** ** The error monad *)

Lemma bind_Ok_inv {A B} (m : result A) (f : A -> result B) (b : B) :
  bind m f = Ok b -> exists a, m = Ok a /\ f a = Ok b.
Proof. destruct m as [a|e]; simpl; [eauto | discriminate]. Qed.

Lemma traverse_Ok_Forall2 {A B} (f : A -> result B) xs ys :
  traverse f xs = Ok ys <-> Forall2 (fun x y => f x = Ok y) xs ys.
Proof.
  revert ys. induction xs as [|x xs IH]; intros ys; simpl.
  - split.
    + intros [= <-]. constructor.
    + intros Hf. inversion Hf. reflexivity.
  - split.
    + intros Hb. apply bind_Ok_inv in Hb as (y & Hy & Hb).
      apply bind_Ok_inv in Hb as (ys' & Hys & [= <-]).
      constructor; [assumption | by apply IH].
    + intros Hf. inversion Hf as [|? y ? ys' Hy Hys]; subst.
      rewrite Hy. simpl. apply IH in Hys. rewrite Hys. reflexivity.
Qed.

(** A comprehension over totally buildable elements builds. *)
Lemma traverse_total {A B} (f : A -> result B) xs :
  Forall (fun x => exists y, f x = Ok y) xs -> exists ys, traverse f xs = Ok ys.
Proof.
  induction 1 as [|x xs [y Hy] _ [ys Hys]]; simpl; [eauto |].
  rewrite Hy, Hys. simpl. eauto.
Qed.

(** A comprehension raises as soon as one element does: the exception is
    that of the first element that fails. *)
Lemma traverse_Err {A B} (f : A -> result B) xs x :
  In x xs -> (exists e, f x = Err e) ->
  exists x' e', In x' xs /\ f x' = Err e' /\ traverse f xs = Err e'.
Proof.
  induction xs as [|y xs IH]; simpl; [tauto |].
  intros Hin Hx. destruct (f y) as [b|e] eqn:Hy; simpl.
  - destruct Hin as [->|Hin].
    + destruct Hx as [e He]. congruence.
    + destruct (IH Hin Hx) as (x' & e' & Hin' & Hx' & Ht).
      exists x', e'. rewrite Ht. simpl. auto.
  - exists y, e. auto.
Qed.

(** ** Stable sorting *)

Section SortedFacts.
Context {A K : Type} `{EqDecision K}.
Variable lt : K -> K -> bool.
Variable key_of : A -> K.

  (** The order on the keys that occur: a strict total order. *)
Hypothesis lt_irrefl : forall a, lt (key_of a) (key_of a) = false.
Hypothesis lt_trans : forall a b c,
    lt (key_of a) (key_of b) = true -> lt (key_of b) (key_of c) = true ->
    lt (key_of a) (key_of c) = true.
Hypothesis lt_total : forall a b,
    lt (key_of a) (key_of b) = false -> lt (key_of b) (key_of a) = false ->
    key_of a = key_of b.

#[local] Abbreviation key_le := (key_le lt key_of).
#[local] Abbreviation has_key := (has_key key_of).

Lemma lt_asym a b :
    lt (key_of a) (key_of b) = true -> lt (key_of b) (key_of a) = false.
  Proof using lt_irrefl lt_trans.
    intros Hab. destruct (lt (key_of b) (key_of a)) eqn:Hba; [|reflexivity].
    rewrite <- (lt_irrefl a). symmetry. eauto.
  Qed.

Lemma lt_key_ne a b : lt (key_of a) (key_of b) = true -> key_of a <> key_of b.
  Proof using lt_irrefl.
    intros Hab Heq. rewrite Heq in Hab. rewrite lt_irrefl in Hab. discriminate.
  Qed.

Lemma key_le_trans a b c : key_le a b -> key_le b c -> key_le a c.
  Proof using lt_irrefl lt_trans lt_total.
    unfold key_le. intros Hab Hbc.
    destruct (lt (key_of c) (key_of a)) eqn:Hca; [|reflexivity].
    destruct (lt (key_of a) (key_of b)) eqn:Hlt.
    - rewrite <- Hbc. symmetry. eauto.
    - rewrite <- Hbc, <- Hca. f_equal. symmetry. by apply lt_total.
  Qed.

Lemma key_le_of_lt a b : lt (key_of a) (key_of b) = true -> key_le a b.
  Proof using lt_irrefl lt_trans. apply lt_asym. Qed.

Lemma insert_stable_Permutation x l :
    Permutation (insert_stable lt key_of x l) (x :: l).
  Proof using Type.
    induction l as [|y l IH]; simpl; [reflexivity |].
    destruct (lt (key_of y) (key_of x)); [|reflexivity].
    rewrite IH. apply perm_swap.
  Qed.

Lemma sorted_Permutation l : Permutation (sorted lt key_of l) l.
  Proof using Type.
    induction l as [|x l IH]; simpl; [reflexivity |].
    rewrite insert_stable_Permutation. by constructor.
  Qed.

Lemma insert_stable_StronglySorted x l :
    StronglySorted key_le l -> StronglySorted key_le (insert_stable lt key_of x l).
  Proof using lt_irrefl lt_trans lt_total.
    induction 1 as [|y l Hl IH Hy]; simpl.
    - repeat constructor.
    - destruct (lt (key_of y) (key_of x)) eqn:Hyx.
      + constructor; [assumption |].
        eapply Permutation_Forall.
        * symmetry. apply insert_stable_Permutation.
        * constructor; [by apply key_le_of_lt | assumption].
      + constructor; [by constructor |].
        constructor; [exact Hyx |].
        eapply Forall_impl; [exact Hy |].
        intros z Hz. by apply key_le_trans with y.
  Qed.

Lemma sorted_StronglySorted l : StronglySorted key_le (sorted lt key_of l).
  Proof using lt_irrefl lt_trans lt_total.
    induction l; simpl; [constructor | by apply insert_stable_StronglySorted].
  Qed.

  (** Stability: elements with the same key keep their order. *)
Lemma insert_stable_filter k x l :
    List.filter (has_key k) (insert_stable lt key_of x l)
    = List.filter (has_key k) (x :: l).
  Proof using lt_irrefl.
    induction l as [|y l IH]; [reflexivity |].
    cbn [insert_stable]. destruct (lt (key_of y) (key_of x)) eqn:Hyx; [|reflexivity].
    apply lt_key_ne in Hyx. cbn [List.filter] in *. rewrite IH.
    unfold has_key. repeat case_bool_decide; congruence.
  Qed.

Lemma sorted_stable k l :
    List.filter (has_key k) (sorted lt key_of l) = List.filter (has_key k) l.
  Proof using lt_irrefl.
    induction l as [|x l IH]; [reflexivity |].
    cbn [sorted]. rewrite insert_stable_filter. cbn [List.filter]. by rewrite IH.
  Qed.

  (** The stable sort is unique: a sorted list with the same elements of
      every key, in the same order, is the result of [sorted]. *)
Lemma stable_sort_unique_aux l1 l2 :
    StronglySorted key_le l1 -> StronglySorted key_le l2 ->
    (forall k, List.filter (has_key k) l1 = List.filter (has_key k) l2) ->
    l1 = l2.
  Proof using lt_irrefl lt_trans lt_total.
    intros Hs1. revert l2. induction Hs1 as [|x l1 Hs1 IH Hx]; intros l2 Hs2 Hf.
    - destruct l2 as [|y l2]; [reflexivity |].
      specialize (Hf (key_of y)). cbn in Hf. unfold has_key in Hf.
      rewrite bool_decide_eq_true_2 in Hf by reflexivity. discriminate.
    - destruct Hs2 as [|y l2 Hs2 Hy].
      { specialize (Hf (key_of x)). cbn in Hf. unfold has_key in Hf.
        rewrite bool_decide_eq_true_2 in Hf by reflexivity. discriminate. }
      assert (Hin : forall (u : A) (l l' : list A) (v : A),
                 List.filter (has_key (key_of u)) (u :: l)
                 = List.filter (has_key (key_of u)) (v :: l') ->
                 u = v \/ In u l').
      { intros u l l' v Huv. cbn in Huv. unfold has_key at 1 in Huv.
        rewrite bool_decide_eq_true_2 in Huv by reflexivity.
        destruct (has_key (key_of u) v).
        - injection Huv as -> _. by left.
        - right. assert (Hu : In u (List.filter (has_key (key_of u)) l')).
          { rewrite <- Huv. by left. }
          apply filter_In in Hu. tauto. }
      assert (Hkey : key_of x = key_of y).
      { apply lt_total.
        - destruct (Hin x l1 l2 y (Hf (key_of x))) as [->|Hi];
            [apply lt_irrefl |].
          rewrite Forall_forall in Hy. apply (Hy x). by apply list_elem_of_In.
        - destruct (Hin y l2 l1 x (eq_sym (Hf (key_of y)))) as [->|Hi];
            [apply lt_irrefl |].
          rewrite Forall_forall in Hx. apply (Hx y). by apply list_elem_of_In. }
      assert (Hxy : x = y).
      { specialize (Hf (key_of x)). cbn in Hf. unfold has_key in Hf.
        rewrite bool_decide_eq_true_2 in Hf by reflexivity.
        rewrite bool_decide_eq_true_2 in Hf by (symmetry; exact Hkey).
        congruence. }
      subst y. f_equal. apply IH; [assumption |].
      intros k. specialize (Hf k). cbn in Hf.
      destruct (has_key k x); congruence.
  Qed.

Lemma stable_sort_unique l l' :
    StronglySorted key_le l' ->
    (forall k, List.filter (has_key k) l' = List.filter (has_key k) l) ->
    l' = sorted lt key_of l.
  Proof using lt_irrefl lt_trans lt_total.
    intros Hs Hf. apply stable_sort_unique_aux; [assumption | |].
    - apply sorted_StronglySorted.
    - intros k. by rewrite sorted_stable.
  Qed.

  (** Elements with the sort field and elements without it.  [p] tells
      them apart: keys of the former are below keys of the latter, and the
      latter all tie. *)
Variable p : A -> bool.
Hypothesis p_below : forall a b,
    p a = true -> p b = false -> lt (key_of a) (key_of b) = true.
Hypothesis p_tie : forall a b,
    p a = false -> p b = false -> lt (key_of a) (key_of b) = false.

Lemma insert_stable_app_front x l1 l2 :
    Forall (fun y => lt (key_of y) (key_of x) = false) l2 ->
    (insert_stable lt key_of x (l1 ++ l2) = insert_stable lt key_of x l1 ++ l2)%list.
  Proof using Type.
    intros Hl2. induction l1 as [|y l1 IH]; simpl.
    - destruct Hl2 as [|z l2 Hz _]; simpl; [reflexivity | by rewrite Hz].
    - destruct (lt (key_of y) (key_of x)); [by rewrite IH | reflexivity].
  Qed.

Lemma insert_stable_app_back x l1 l2 :
    Forall (fun y => lt (key_of y) (key_of x) = true) l1 ->
    Forall (fun y => lt (key_of y) (key_of x) = false) l2 ->
    (insert_stable lt key_of x (l1 ++ l2) = l1 ++ x :: l2)%list.
  Proof using Type.
    intros Hl1 Hl2. induction Hl1 as [|y l1 Hy _ IH]; simpl.
    - destruct Hl2 as [|z l2 Hz _]; simpl; [reflexivity | by rewrite Hz].
    - by rewrite Hy, IH.
  Qed.

Lemma sorted_split l :
    sorted lt key_of l
    = (sorted lt key_of (List.filter p l)
       ++ List.filter (fun a => negb (p a)) l)%list.
  Proof using lt_irrefl lt_trans p_below p_tie.
    induction l as [|x l IH]; [reflexivity |].
    cbn [sorted List.filter]. rewrite IH. destruct (p x) eqn:Hpx; cbn [negb sorted].
    - apply insert_stable_app_front. apply Forall_forall. intros y Hy.
      apply list_elem_of_In, filter_In in Hy as [_ Hy].
      apply negb_true_iff in Hy. apply lt_asym. by apply p_below.
    - apply insert_stable_app_back.
      + eapply Permutation_Forall; [symmetry; apply sorted_Permutation |].
        apply Forall_forall. intros y Hy.
        apply list_elem_of_In, filter_In in Hy as [_ Hy]. by apply p_below.
      + apply Forall_forall. intros y Hy.
        apply list_elem_of_In, filter_In in Hy as [_ Hy].
        apply negb_true_iff in Hy. by apply p_tie.
  Qed.
End SortedFacts.

(** ** The order on sort keys *)

Lemma string_ltb_irrefl s : String.ltb s s = false.
Proof.
  unfold String.ltb. pose proof (String.compare_antisym s s) as Hs.
  destruct (String.compare s s); simpl in Hs; congruence.
Qed.

Lemma ascii_compare_lt_trans a b c :
  Ascii.compare a b = Lt -> Ascii.compare b c = Lt -> Ascii.compare a c = Lt.
Proof.
  unfold Ascii.compare. rewrite !N.compare_lt_iff. apply N.lt_trans.
Qed.

Lemma string_compare_lt_trans s1 s2 s3 :
  String.compare s1 s2 = Lt -> String.compare s2 s3 = Lt ->
  String.compare s1 s3 = Lt.
Proof.
  revert s2 s3. induction s1 as [|a s1 IH]; intros [|b s2] [|c s3]; simpl;
    try congruence.
  destruct (Ascii.compare a b) eqn:Hab; try discriminate;
    destruct (Ascii.compare b c) eqn:Hbc; try discriminate; intros H12 H23.
  - pose proof (Ascii.compare_eq_iff _ _ Hab) as ->.
    rewrite Hbc. eauto.
  - apply Ascii.compare_eq_iff in Hab. subst. by rewrite Hbc.
  - apply Ascii.compare_eq_iff in Hbc. subst. by rewrite Hab.
  - by rewrite (ascii_compare_lt_trans _ _ _ Hab Hbc).
Qed.

Lemma string_ltb_trans s1 s2 s3 :
  String.ltb s1 s2 = true -> String.ltb s2 s3 = true -> String.ltb s1 s3 = true.
Proof.
  unfold String.ltb. intros H12 H23.
  destruct (String.compare s1 s2) eqn:E12; try discriminate.
  destruct (String.compare s2 s3) eqn:E23; try discriminate.
  by rewrite (string_compare_lt_trans _ _ _ E12 E23).
Qed.

Lemma string_ltb_total s1 s2 :
  String.ltb s1 s2 = false -> String.ltb s2 s1 = false -> s1 = s2.
Proof.
  unfold String.ltb. rewrite (String.compare_antisym s2 s1).
  destruct (String.compare s1 s2) eqn:E; simpl; try discriminate.
  intros _ _. by apply String.compare_eq_iff.
Qed.

Section FieldKey.
Context {V : Type} `{EqDecision V}.
Variable ltV : V -> V -> bool.
Variable field : Item -> option V.
Variable key_of : Item -> bool * option V.

Hypothesis key_of_eq : forall k,
    key_of k = (negb (bool_decide (is_Some (field k))), field k).
Hypothesis ltV_irrefl : forall v, ltV v v = false.
Hypothesis ltV_trans : forall u v w,
    ltV u v = true -> ltV v w = true -> ltV u w = true.
Hypothesis ltV_total : forall u v,
    ltV u v = false -> ltV v u = false -> u = v.

#[local] Abbreviation has_field := (has_field field).

Lemma field_key_cases k :
    (exists v, field k = Some v /\ key_of k = (false, Some v))
    \/ (field k = None /\ key_of k = (true, None)).
  Proof using key_of_eq.
    rewrite key_of_eq. destruct (field k) as [v|]; [left | right]; eauto.
  Qed.

Lemma field_lt_irrefl a : tuple_lt ltV (key_of a) (key_of a) = false.
  Proof using key_of_eq ltV_irrefl.
    destruct (field_key_cases a) as [(v & _ & ->)|[_ ->]]; cbn; auto.
  Qed.

Lemma field_lt_trans a b c :
    tuple_lt ltV (key_of a) (key_of b) = true ->
    tuple_lt ltV (key_of b) (key_of c) = true ->
    tuple_lt ltV (key_of a) (key_of c) = true.
  Proof using key_of_eq ltV_trans.
    destruct (field_key_cases a) as [(u & _ & ->)|[_ ->]];
      destruct (field_key_cases b) as [(v & _ & ->)|[_ ->]];
      destruct (field_key_cases c) as [(w & _ & ->)|[_ ->]]; cbn;
      try congruence.
    apply ltV_trans.
  Qed.

Lemma field_lt_total a b :
    tuple_lt ltV (key_of a) (key_of b) = false ->
    tuple_lt ltV (key_of b) (key_of a) = false ->
    key_of a = key_of b.
  Proof using key_of_eq ltV_total.
    destruct (field_key_cases a) as [(u & _ & ->)|[_ ->]];
      destruct (field_key_cases b) as [(v & _ & ->)|[_ ->]]; cbn;
      try congruence.
    intros Huv Hvu. by rewrite (ltV_total _ _ Huv Hvu).
  Qed.

Lemma field_below a b :
    has_field a = true -> has_field b = false ->
    tuple_lt ltV (key_of a) (key_of b) = true.
  Proof using key_of_eq.
    unfold has_field. rewrite !key_of_eq.
    intros -> ->. reflexivity.
  Qed.

Lemma field_tie a b :
    has_field a = false -> has_field b = false ->
    tuple_lt ltV (key_of a) (key_of b) = false.
  Proof using key_of_eq.
    unfold has_field. rewrite !key_of_eq.
    intros Ha Hb. rewrite Ha, Hb. cbn.
    apply bool_decide_eq_false in Ha, Hb.
    destruct (field a); [exfalso; eauto |]. reflexivity.
  Qed.
End FieldKey.

Section FieldSort.
Context {V : Type} `{EqDecision V}.
Variable ltV : V -> V -> bool.
Variable field : Item -> option V.
Variable key_of : Item -> bool * option V.

Hypothesis key_of_eq : forall k,
    key_of k = (negb (bool_decide (is_Some (field k))), field k).
Hypothesis ltV_irrefl : forall v, ltV v v = false.
Hypothesis ltV_trans : forall u v w,
    ltV u v = true -> ltV v w = true -> ltV u w = true.
Hypothesis ltV_total : forall u v,
    ltV u v = false -> ltV v u = false -> u = v.

Lemma has_key_field (v : option V) k :
    has_key key_of (negb (bool_decide (is_Some v)), v) k
    = bool_decide (field k = v).
  Proof using key_of_eq.
    unfold has_key. rewrite key_of_eq.
    apply bool_decide_ext. split; [by intros [= _ ->] | by intros ->].
  Qed.

Lemma StronglySorted_key_le_field l :
    StronglySorted (key_le (tuple_lt ltV) key_of) l ->
    StronglySorted
      (fun a b => forall u v, field a = Some u -> field b = Some v ->
                              ltV v u = false) l.
  Proof using key_of_eq.
    induction 1 as [|a l _ IH Ha]; constructor; [assumption |].
    eapply Forall_impl; [exact Ha |].
    intros b Hab u v Hu Hv. unfold key_le in Hab.
    rewrite !key_of_eq, Hu, Hv in Hab. exact Hab.
  Qed.

Lemma sorted_sort_policy :
    sort_policy ltV field (sorted (tuple_lt ltV) key_of).
  Proof using key_of_eq ltV_irrefl ltV_trans ltV_total.
    pose proof (field_lt_irrefl ltV field key_of key_of_eq ltV_irrefl) as Hirr.
    pose proof (field_lt_trans ltV field key_of key_of_eq ltV_trans) as Htr.
    pose proof (field_lt_total ltV field key_of key_of_eq ltV_total) as Htot.
    intros l. repeat split.
    - apply sorted_split; try assumption.
      + apply (field_below ltV field key_of key_of_eq).
      + apply (field_tie ltV field key_of key_of_eq).
    - apply StronglySorted_key_le_field.
      by apply sorted_StronglySorted.
    - apply sorted_Permutation.
    - intros v.
      rewrite <- !(filter_ext _ _ (has_key_field v)).
      by apply sorted_stable.
  Qed.
End FieldSort.

Lemma Z_ltb_total u v : Z.ltb u v = false -> Z.ltb v u = false -> u = v.
Proof. rewrite !Z.ltb_ge. lia. Qed.

Lemma Z_ltb_trans u v w :
  Z.ltb u v = true -> Z.ltb v w = true -> Z.ltb u w = true.
Proof. rewrite !Z.ltb_lt. lia. Qed.

(** ** Sort policy of the builders *)

(** C3. Every builder sorts the fetched children with Python's stable sort
    on the key (record lacks the field, field value): [Name] for artists,
    albums, movies and series, [IndexNumber] for tracks, seasons and
    episodes.  The records with the field come first in ascending order of
    its value, the records without it follow in their original order, and
    the albums "B", unnamed, "A" sort to "A", "B", unnamed. *)
Theorem C3_sort_policy :
  sort_policy String.ltb Name sorted_by_name
  /\ sort_policy Z.ltb IndexNumber sorted_by_index
  /\ (forall (C : Const) guess_type client parent_id,
        _build_artists guess_type client parent_id
        = (items <-- _get_children client parent_id ITEM_TYPE_ARTIST ;;
           traverse (fun artist => _build_artist guess_type client artist false)
             (sorted_by_name items))
        /\ _build_albums guess_type client parent_id
           = (items <-- _get_children client parent_id ITEM_TYPE_ALBUM ;;
              traverse (fun album => _build_album guess_type client album false)
                (sorted_by_name items))
        /\ _build_movies guess_type client parent_id
           = (items <-- _get_children client parent_id ITEM_TYPE_MOVIE ;;
              traverse (_build_movie guess_type client)
                (List.filter
                   (fun k => bool_decide (is_Some (_media_mime_type guess_type k)))
                   (sorted_by_name items)))
        /\ _build_tvshow guess_type client parent_id
           = (items <-- _get_children client parent_id ITEM_TYPE_SERIES ;;
              traverse (fun serie => _build_series guess_type client serie false)
                (sorted_by_name items))
        /\ _build_tracks guess_type client parent_id
           = (items <-- _get_children client parent_id ITEM_TYPE_AUDIO ;;
              traverse (_build_track guess_type client)
                (List.filter
                   (fun k => bool_decide (is_Some (_media_mime_type guess_type k)))
                   (sorted_by_index items)))
        /\ _build_seasons guess_type client parent_id
           = (items <-- _get_children client parent_id ITEM_TYPE_SEASON ;;
              traverse (fun season => _build_season guess_type client season false)
                (sorted_by_index items))
        /\ _build_episodes guess_type client parent_id
           = (items <-- _get_children client parent_id ITEM_TYPE_EPISODE ;;
              traverse (_build_episode guess_type client)
                (List.filter
                   (fun k => bool_decide (is_Some (_media_mime_type guess_type k)))
                   (sorted_by_index items))))
  /\ sorted_by_name [album_B; album_unnamed; album_A]
     = [album_A; album_B; album_unnamed].
Proof.
  split; [|split; [|split]].
  - apply sorted_sort_policy.
    + reflexivity.
    + exact string_ltb_irrefl.
    + exact string_ltb_trans.
    + exact string_ltb_total.
  - apply sorted_sort_policy.
    + reflexivity.
    + exact Z.ltb_irrefl.
    + exact Z_ltb_trans.
    + exact Z_ltb_total.
  - intros. repeat split; reflexivity.
  - reflexivity.
Qed.

(** ** Node constructors *)

Lemma getitem_Ok {A} (k : key) (field : option A) (v : A) :
  getitem k field = Ok v <-> field = Some v.
Proof. destruct field; simpl; split; congruence. Qed.

Lemma getitem_Err {A} (k : key) (field : option A) (e : exn) :
  getitem k field = Err e <-> field = None /\ e = KeyError k.
Proof. destruct field; simpl; split; try congruence; intuition congruence. Qed.

(** Unfold the error monad and split on every subscription. *)
Ltac run_monad :=
  unfold getitem, bind in *;
  repeat (case_match; simplify_eq/=); eauto.

Section NodeFacts.
Context `{Const}.
Variable guess_type : string -> option string.
Variable c : JellyfinClient.

Lemma _get_thumbnail_url_total item :
  is_Some (Id item) -> is_Some (ImageTags item) ->
  exists t, _get_thumbnail_url c item = Ok t.
Proof using Type.
  intros [id Hid] [tags Htags]. unfold _get_thumbnail_url.
  rewrite Hid, Htags. simpl. destruct (negb _); eauto.
Qed.

Lemma _get_thumbnail_url_Err item e :
  _get_thumbnail_url c item = Err e -> exists k, e = KeyError k.
Proof using Type. unfold _get_thumbnail_url. intros. run_monad. Qed.

Lemma _build_track_Ok item n :
  _build_track guess_type c item = Ok n -> leaf_node guess_type TRACK item n.
Proof using Type.
  unfold _build_track, leaf_node. intros. run_monad.
  repeat split; done.
Qed.

Lemma _build_movie_Ok item n :
  _build_movie guess_type c item = Ok n -> leaf_node guess_type MOVIE item n.
Proof using Type.
  unfold _build_movie, leaf_node. intros. run_monad.
  repeat split; done.
Qed.

Lemma _build_episode_Ok item n :
  _build_episode guess_type c item = Ok n -> leaf_node guess_type EPISODE item n.
Proof using Type.
  unfold _build_episode, leaf_node. intros. run_monad.
  repeat split; done.
Qed.

Lemma _build_artist_Ok item n :
  _build_artist guess_type c item false = Ok n -> container_node ARTIST item n.
Proof using Type.
  unfold _build_artist, container_node. intros. run_monad.
  repeat split; done.
Qed.

Lemma _build_album_Ok item n :
  _build_album guess_type c item false = Ok n -> container_node ALBUM item n.
Proof using Type.
  unfold _build_album, container_node. intros. run_monad.
  repeat split; done.
Qed.

Lemma _build_series_Ok item n :
  _build_series guess_type c item false = Ok n -> container_node TV_SHOW item n.
Proof using Type.
  unfold _build_series, container_node. intros. run_monad.
  repeat split; done.
Qed.

(** The season constructor gives its node the class of a show. *)
Lemma _build_season_Ok item n :
  _build_season guess_type c item false = Ok n -> container_node TV_SHOW item n.
Proof using Type.
  unfold _build_season, container_node. intros. run_monad.
  repeat split; done.
Qed.

(** A constructor succeeds on an item that has the three keys. *)
Lemma constructors_total item :
  buildable item ->
  (exists n, _build_track guess_type c item = Ok n)
  /\ (exists n, _build_movie guess_type c item = Ok n)
  /\ (exists n, _build_episode guess_type c item = Ok n)
  /\ (exists n, _build_artist guess_type c item false = Ok n)
  /\ (exists n, _build_album guess_type c item false = Ok n)
  /\ (exists n, _build_series guess_type c item false = Ok n)
  /\ (exists n, _build_season guess_type c item false = Ok n).
Proof using Type.
  intros ([id Hid] & [nm Hnm] & Htags).
  destruct (_get_thumbnail_url_total item) as [t Ht]; [eauto | done |].
  unfold _build_track, _build_movie, _build_episode, _build_artist,
    _build_album, _build_series, _build_season.
  rewrite Hid, Hnm, Ht. simpl. repeat split; eauto.
Qed.

(** Without children, a constructor raises nothing but [KeyError]. *)
Lemma constructors_Err item e :
  _build_track guess_type c item = Err e
  \/ _build_movie guess_type c item = Err e
  \/ _build_episode guess_type c item = Err e
  \/ _build_artist guess_type c item false = Err e
  \/ _build_album guess_type c item false = Err e
  \/ _build_series guess_type c item false = Err e
  \/ _build_season guess_type c item false = Err e ->
  exists k, e = KeyError k.
Proof using Type.
  unfold _build_track, _build_movie, _build_episode, _build_artist,
    _build_album, _build_series, _build_season.
  intros Hor. decompose [or] Hor; clear Hor;
    (destruct (_get_thumbnail_url c item) as [t|e'] eqn:Ht;
     [|apply _get_thumbnail_url_Err in Ht as [k ->]]); run_monad.
Qed.

(** Every constructor subscripts [Name]: on an item without the key it
    raises [KeyError], whatever [include_children] is. *)
Lemma constructors_unnamed item b :
  Name item = None ->
  (exists k, _build_track guess_type c item = Err (KeyError k))
  /\ (exists k, _build_movie guess_type c item = Err (KeyError k))
  /\ (exists k, _build_episode guess_type c item = Err (KeyError k))
  /\ (exists k, _build_artist guess_type c item b = Err (KeyError k))
  /\ (exists k, _build_album guess_type c item b = Err (KeyError k))
  /\ (exists k, _build_series guess_type c item b = Err (KeyError k))
  /\ (exists k, _build_season guess_type c item b = Err (KeyError k))
  /\ (exists k, _build_music_library guess_type c item b = Err (KeyError k))
  /\ (exists k, _build_movie_library guess_type c item b = Err (KeyError k))
  /\ (exists k, _build_tv_library guess_type c item b = Err (KeyError k)).
Proof using Type.
  intros Hnm.
  unfold _build_track, _build_movie, _build_episode, _build_artist,
    _build_album, _build_series, _build_season, _build_music_library,
    _build_movie_library, _build_tv_library.
  rewrite Hnm. destruct (Id item); simpl; repeat split; eauto.
Qed.

Lemma _get_children_Ok parent type items :
  _get_children c parent type = Ok items ->
  exists params,
    ParentId params = parent /\ IncludeItemTypes params = type
    /\ user_items c "" params = Ok (mkResponse (Some items)).
Proof using Type.
  unfold _get_children. intros Hg.
  destruct (user_items c "" _) as [[[its|]]|] eqn:Hu; simpl in Hg; simplify_eq.
  eexists. split; [|split; [|exact Hu]]; reflexivity.
Qed.
End NodeFacts.

(** ** The MIME resolver *)

(** Strings. *)

Lemma str_app_cons (a : ascii) (s t : string) :
  String a s ++ t = String a (s ++ t).
Proof. reflexivity. Qed.

Lemma str_app_nil (t : string) : "" ++ t = t.
Proof. reflexivity. Qed.

Lemma str_app_assoc (s t u : string) : (s ++ t) ++ u = s ++ t ++ u.
Proof.
  induction s as [|a s IH]; [reflexivity |].
  rewrite !str_app_cons. by rewrite IH.
Qed.

Lemma str_app_snoc (s : string) (a : ascii) (t : string) :
  s ++ String a t = (s ++ String a "") ++ t.
Proof. by rewrite str_app_assoc. Qed.

Lemma str_length_app (s t : string) :
  String.length (s ++ t) = (String.length s + String.length t)%nat.
Proof.
  induction s as [|a s IH]; [reflexivity |].
  rewrite str_app_cons. simpl. by rewrite IH.
Qed.

Lemma str_take_app (s t : string) : str_take (String.length s) (s ++ t) = s.
Proof.
  induction s as [|a s IH]; [by destruct t |].
  rewrite str_app_cons. simpl. by rewrite IH.
Qed.

Lemma str_drop_app (s t : string) : str_drop (String.length s) (s ++ t) = t.
Proof.
  induction s as [|a s IH]; [by destruct t |].
  rewrite str_app_cons. simpl. exact IH.
Qed.




Lemma str_rfind_bounds (ch : ascii) (s : string) :
  -1 <= str_rfind ch s < Z.of_nat (String.length s).
Proof.
  induction s as [|a s IH]; simpl; [lia |].
  destruct (0 <=? str_rfind ch s); [lia |].
  destruct (Ascii.eqb a ch); lia.
Qed.

Lemma str_rfind_app (ch : ascii) (s t : string) :
  str_rfind ch (s ++ t)
  = if 0 <=? str_rfind ch t then Z.of_nat (String.length s) + str_rfind ch t
    else str_rfind ch s.
Proof.
  induction s as [|a s IH].
  - rewrite str_app_nil. simpl.
    pose proof (str_rfind_bounds ch t).
    destruct (0 <=? str_rfind ch t) eqn:E; [lia |].
    apply Z.leb_gt in E. lia.
  - rewrite str_app_cons. simpl str_rfind. rewrite IH.
    destruct (0 <=? str_rfind ch t) eqn:E; [| reflexivity].
    apply Z.leb_le in E.
    assert ((0 <=? Z.of_nat (String.length s) + str_rfind ch t) = true) as ->
      by (apply Z.leb_le; lia).
    simpl String.length. lia.
Qed.

(** Splitting the extension. *)

Lemma skip_leading_dots_stem (n : nat) (p : string) (f dotIndex i : Z) :
  f <= i < f + Z.of_nat n ->
  String.eqb (str_slice i (i + 1) p) "." = false ->
  skip_leading_dots n p f dotIndex
  = (str_slice 0 dotIndex p, str_from dotIndex p).
Proof.
  revert f. induction n as [|n IH]; intros f Hi Hc; [lia |].
  simpl. destruct (String.eqb (str_slice f (f + 1) p) ".") eqn:E; simpl;
    [| reflexivity].
  apply IH; [| exact Hc].
  assert (i <> f) by (intros ->; congruence). lia.
Qed.

(** The extension of [dir ++ name ++ "." ++ x], where [name] is free of
    slashes and has a character other than a dot, and [x] is free of dots
    and slashes, is ["." ++ x]. *)
Lemma splitext_app (dir name x : string) :
  has_stem name ->
  str_rfind "." x = -1 ->
  str_rfind "/" x = -1 ->
  splitext (dir ++ name ++ String "." x) = (dir ++ name, String "." x).
Proof.
  intros [Hsep (front & ch & back & -> & Hch)] Hdot Hslash.
  set (name := front ++ String ch back) in *.
  unfold splitext.
  rewrite <- (str_app_assoc dir name).
  rewrite !(str_rfind_app _ (dir ++ name)).
  assert (str_rfind "." (String "." x) = 0) as ->
    by (simpl; by rewrite Hdot).
  assert (str_rfind "/" (String "." x) = -1) as ->
    by (simpl; by rewrite Hslash).
  rewrite (str_rfind_app _ dir), Hsep. simpl.
  pose proof (str_rfind_bounds "/" dir) as Hb.
  rewrite Z.add_0_r.
  assert (Hlen : String.length (dir ++ name)
                 = (String.length (dir ++ front) + S (String.length back))%nat).
  { subst name. rewrite <- str_app_assoc, str_length_app. reflexivity. }
  assert (Hfront : (String.length dir <= String.length (dir ++ front))%nat).
  { rewrite str_length_app. lia. }
  assert ((str_rfind "/" dir <? Z.of_nat (String.length (dir ++ name))) = true)
    as -> by (apply Z.ltb_lt; lia).
  rewrite (skip_leading_dots_stem _ _ _ _
             (Z.of_nat (String.length (dir ++ front)))).
  - unfold str_slice, str_from. rewrite Z.sub_0_r, Nat2Z.id. simpl str_drop at 1.
    by rewrite str_take_app, str_drop_app.
  - lia.
  - unfold str_slice.
    replace (Z.of_nat (String.length (dir ++ front)) + 1
             - Z.of_nat (String.length (dir ++ front))) with 1 by lia.
    rewrite Nat2Z.id. subst name.
    rewrite <- (str_app_assoc dir front), (str_app_assoc (dir ++ front)).
    rewrite str_drop_app, str_app_cons. simpl.
    destruct (Ascii.eqb_spec ch "."); [contradiction | reflexivity].
Qed.

(** The suffix loop. *)

Lemma has_stem_cons (ch : ascii) (s : string) :
  ch <> "."%char -> ch <> "/"%char -> str_rfind "/" s = -1 ->
  has_stem (String ch s).
Proof.
  intros Hdot Hsep Hs. split.
  - simpl. rewrite Hs. simpl.
    destruct (Ascii.eqb_spec ch "/"); [contradiction | reflexivity].
  - by exists "", ch, s.
Qed.

(** Every replacement of the table of suffixes is a stem followed by an
    extension that the table does not replace. *)
Lemma suffix_map_replacement (ext r : string) :
  suffix_map ext = Some r ->
  exists stem x,
    r = String "." stem ++ String "." x
    /\ has_stem stem
    /\ str_rfind "." x = -1
    /\ str_rfind "/" x = -1
    /\ suffix_map (str_lower (String "." x)) = None.
Proof.
  unfold suffix_map.
  repeat match goal with
         | |- context [String.eqb ext ?s] => destruct (String.eqb ext s)
         end;
    intros [= <-];
    first [ by (exists "svg", "gz"; repeat split; try reflexivity;
                by exists "", "s"%char, "vg")
          | by (exists "tar", "gz"; repeat split; try reflexivity;
                by exists "", "t"%char, "ar")
          | by (exists "tar", "bz2"; repeat split; try reflexivity;
                by exists "", "t"%char, "ar")
          | by (exists "tar", "xz"; repeat split; try reflexivity;
                by exists "", "t"%char, "ar") ].
Qed.

Lemma splitext_replacement (base ext r : string) :
  suffix_map ext = Some r ->
  exists base' ext',
    splitext (base ++ r) = (base', ext')
    /\ suffix_map (str_lower ext') = None.
Proof.
  intros (stem & x & -> & Hstem & Hdot & Hsep & Hnone)%suffix_map_replacement.
  exists (base ++ String "." stem), (String "." x). split; [| exact Hnone].
  rewrite str_app_cons, (str_app_snoc base "." (stem ++ String "." x)),
    (str_app_snoc base "." stem).
  exact (splitext_app (base ++ ".") stem x Hstem Hdot Hsep).
Qed.

(** One replacement at most is ever made: the loop of [guess_type] runs
    the same with two rounds of fuel as with any larger number. *)
Lemma suffix_loop_enough (fuel : nat) (base ext : string) :
  suffix_loop (2 + fuel) base ext = suffix_loop 2 base ext.
Proof.
  simpl. destruct (suffix_map (str_lower ext)) as [r|] eqn:E; [| reflexivity].
  destruct (splitext_replacement base _ r E) as (base' & ext' & -> & Hnone).
  rewrite Hnone. by destruct fuel; simpl; rewrite ?Hnone.
Qed.

Lemma suffix_loop_exit (base ext : string) :
  suffix_map (str_lower (snd (suffix_loop 2 base ext))) = None.
Proof.
  simpl. destruct (suffix_map (str_lower ext)) as [r|] eqn:E; [| exact E].
  destruct (splitext_replacement base _ r E) as (base' & ext' & -> & Hnone).
  by rewrite Hnone.
Qed.








(** ** Leaf children *)

Section LeafFacts.
Context `{Const}.
Variable guess_type : string -> option string.

Lemma playable_spec item :
  playable guess_type item = true <-> is_Some (_media_mime_type guess_type item).
Proof using Type. unfold playable. apply bool_decide_eq_true. Qed.

Lemma leaf_sorted_Permutation kind items :
  Permutation (leaf_sorted kind items) items.
Proof using Type. destruct kind; apply sorted_Permutation. Qed.

Lemma leaf_list_nodes (build : Item -> result BrowseMediaSource) cls items nodes :
  (forall item n, build item = Ok n -> leaf_node guess_type cls item n) ->
  traverse build (List.filter (playable guess_type) items) = Ok nodes ->
  Forall (fun n => can_play n = true /\ is_Some (media_content_type n)) nodes
  /\ Forall2 (leaf_node guess_type cls)
       (List.filter (playable guess_type) items) nodes.
Proof using Type.
  intros Hbuild Ht. apply traverse_Ok_Forall2 in Ht.
  assert (Hkept : Forall (fun item => playable guess_type item = true)
                    (List.filter (playable guess_type) items)).
  { apply Forall_forall. intros item Hin.
    by apply list_elem_of_In, filter_In in Hin as [_ ?]. }
  induction Ht as [|item n kept nodes Hn _ IH].
  - split; constructor.
  - apply Forall_cons in Hkept as [Hitem Hkept].
    destruct (IH Hkept) as [IH1 IH2]. apply Hbuild in Hn.
    split; constructor; try assumption.
    destruct Hn as (_ & _ & _ & Hmime & Hplay & _).
    split; [assumption |]. rewrite Hmime. by apply playable_spec.
Qed.

Lemma build_leaves_unfold kind c parent :
  build_leaves guess_type kind c parent
  = (items <-- _get_children c parent (leaf_item_type kind) ;;
     traverse
       match kind with
       | Tracks => _build_track guess_type c
       | Movies => _build_movie guess_type c
       | Episodes => _build_episode guess_type c
       end
       (List.filter (playable guess_type) (leaf_sorted kind items))).
Proof using Type. by destruct kind. Qed.
End LeafFacts.

(** C1. In a leaf-type children list (the tracks of an album, the movies of
    a movie library, the episodes of a season) every node is playable and
    carries a content type; the nodes are built, in order, from exactly the
    fetched items for which the resolver gives a type, so that an item for
    which it gives none has no node at all.  The list is built whenever
    the kept items have the keys the constructor reads. *)
Theorem C1_leaf_children `{Const} (guess_type : string -> option string)
    (kind : leaf_kind) (c : JellyfinClient) (parent : string) :
  (forall nodes,
     build_leaves guess_type kind c parent = Ok nodes ->
     Forall (fun n => can_play n = true /\ is_Some (media_content_type n)) nodes
     /\ exists items,
          _get_children c parent (leaf_item_type kind) = Ok items
          /\ Forall2 (leaf_node guess_type (leaf_class kind))
               (List.filter (playable guess_type) (leaf_sorted kind items)) nodes
          /\ (forall item,
                _media_mime_type guess_type item = None ->
                ~ In item
                    (List.filter (playable guess_type) (leaf_sorted kind items))))
  /\ (forall items,
        _get_children c parent (leaf_item_type kind) = Ok items ->
        Forall (fun item => playable guess_type item = true -> buildable item)
          items ->
        exists nodes, build_leaves guess_type kind c parent = Ok nodes).
Proof.
  rewrite build_leaves_unfold. split.
  - intros nodes Hb. apply bind_Ok_inv in Hb as (items & Hitems & Ht).
    assert (Hnodes :
      Forall (fun n => can_play n = true /\ is_Some (media_content_type n)) nodes
      /\ Forall2 (leaf_node guess_type (leaf_class kind))
           (List.filter (playable guess_type) (leaf_sorted kind items)) nodes).
    { destruct kind; (eapply leaf_list_nodes; [|exact Ht]); simpl;
        eauto using _build_track_Ok, _build_movie_Ok, _build_episode_Ok. }
    destruct Hnodes as [Hplay Hrel]. split; [assumption |].
    exists items. repeat split; try assumption.
    intros item Hnone Hin. apply filter_In in Hin as [_ Hin].
    apply playable_spec in Hin as [m Hm]. congruence.
  - intros items -> Hall. simpl. apply traverse_total.
    apply Forall_forall. intros item Hin.
    apply list_elem_of_In, filter_In in Hin as [Hin Hp].
    assert (Hb : buildable item).
    { rewrite Forall_forall in Hall. apply Hall; [|assumption].
      apply list_elem_of_In.
      exact (Permutation_in item (leaf_sorted_Permutation kind items) Hin). }
    destruct (constructors_total guess_type c item Hb)
      as (? & ? & ? & _).
    by destruct kind.
Qed.

Lemma C1_leaf_children_witness :
  exists nodes,
    build_leaves (H := sample_const) sample_guess_type Tracks sample_client "album1"
    = Ok nodes
    /\ length nodes = 1%nat
    /\ Forall (fun n => can_play n = true /\ is_Some (media_content_type n)) nodes.
Proof.
  destruct (C1_leaf_children (H := sample_const) sample_guess_type Tracks
              sample_client "album1") as [Hnodes Htotal].
  destruct (Htotal [track_bare; track_1] eq_refl) as [nodes Hb].
  { repeat constructor; vm_compute; intros; try discriminate; eauto. }
  exists nodes. split; [exact Hb |].
  split; [|exact (proj1 (Hnodes nodes Hb))].
  vm_compute in Hb. by injection Hb as <-.
Defined.

(** ** The entry points *)

Section FacadeFacts.
Context `{Const}.

(** No client: the integration has no data, or empty data. *)
Lemma client_None self :
  client self = Ok None
  <-> hass_data self !! DOMAIN = None
      \/ exists data, hass_data self !! DOMAIN = Some data /\ size data = 0%nat.
Proof using Type.
  unfold client. destruct (hass_data self !! DOMAIN) as [data|].
  2: { split; [by left | done]. }
  destruct (decide (size data = 0%nat)) as [Hz|Hnz].
  - split; [|done]. intros _. right. by exists data.
  - split.
    + destruct (data !! entry_id self); simpl; discriminate.
    + intros [|(data' & [= <-] & Hz)]; [discriminate | contradiction].
Qed.

Lemma NoDup5_neq (a b c d e : string) :
  NoDup [a; b; c; d; e] ->
  a <> b /\ a <> c /\ a <> d /\ a <> e /\ b <> c /\ b <> d /\ b <> e
  /\ c <> d /\ c <> e /\ d <> e.
Proof using Type.
  rewrite !NoDup_cons, !not_elem_of_cons. intuition.
Qed.

Lemma eqb_false_of_neq (s t : string) : s <> t -> String.eqb s t = false.
Proof using Type. apply String.eqb_neq. Qed.

(** With a client, a non-empty identifier and a fetched item that has a
    type, [browse] is the chain of tests on the type. *)
Lemma browse_fetched guess_type self c item media_item item_type :
  client self = Ok (Some c) ->
  item_identifier item <> "" ->
  get_item c (item_identifier item) = Ok media_item ->
  Type_ media_item = Some item_type ->
  async_browse_media guess_type self item
  = if String.eqb item_type ITEM_TYPE_LIBRARY then
      _build_library guess_type c media_item true
    else if String.eqb item_type ITEM_TYPE_ARTIST then
      _build_artist guess_type c media_item true
    else if String.eqb item_type ITEM_TYPE_ALBUM then
      _build_album guess_type c media_item true
    else if String.eqb item_type ITEM_TYPE_SERIES then
      _build_series guess_type c media_item true
    else if String.eqb item_type ITEM_TYPE_SEASON then
      _build_season guess_type c media_item true
    else Err (BrowseError ("Unsupported item type " ++ item_type)).
Proof using Type.
  intros Hc Hid Hget Htype. unfold async_browse_media.
  rewrite Hc. simpl. rewrite (eqb_false_of_neq _ _ Hid), Hget. simpl.
  by rewrite Htype.
Qed.

(** The five builders [browse] dispatches to, when the five type
    constants are distinct. *)
Lemma browse_known_type guess_type self c item media_item item_type :
  client self = Ok (Some c) ->
  item_identifier item <> "" ->
  get_item c (item_identifier item) = Ok media_item ->
  Type_ media_item = Some item_type ->
  NoDup [ITEM_TYPE_LIBRARY; ITEM_TYPE_ARTIST; ITEM_TYPE_ALBUM;
         ITEM_TYPE_SERIES; ITEM_TYPE_SEASON] ->
  (item_type = ITEM_TYPE_LIBRARY ->
   async_browse_media guess_type self item
   = _build_library guess_type c media_item true)
  /\ (item_type = ITEM_TYPE_ARTIST ->
      async_browse_media guess_type self item
      = _build_artist guess_type c media_item true)
  /\ (item_type = ITEM_TYPE_ALBUM ->
      async_browse_media guess_type self item
      = _build_album guess_type c media_item true)
  /\ (item_type = ITEM_TYPE_SERIES ->
      async_browse_media guess_type self item
      = _build_series guess_type c media_item true)
  /\ (item_type = ITEM_TYPE_SEASON ->
      async_browse_media guess_type self item
      = _build_season guess_type c media_item true).
Proof using Type.
  intros Hc Hid Hget Htype Hnd.
  rewrite (browse_fetched guess_type self c item media_item item_type)
    by assumption.
  apply NoDup5_neq in Hnd. destruct Hnd as (?&?&?&?&?&?&?&?&?&?).
  repeat split; intros ->;
    rewrite ?String.eqb_refl, ?eqb_false_of_neq by congruence;
    reflexivity.
Qed.
End FacadeFacts.

(** ** Stream resolution *)

(** C6, as stated, fails: the series of the sample catalogue has an id and
    no media type, so its media type is neither audio nor video; the
    stream resolver raises [KeyError] for the missing key, not a
    [BrowseError] naming a type, and so does [resolve]. *)
Lemma C6_counterexample :
  get_item sample_client "series1" = Ok series_1
  /\ Id series_1 = Some "series1"
  /\ MediaType series_1 = None
  /\ MediaType series_1 <> Some (MEDIA_TYPE_AUDIO (Const := sample_const))
  /\ MediaType series_1 <> Some (MEDIA_TYPE_VIDEO (Const := sample_const))
  /\ _get_stream_url (H := sample_const) sample_client series_1
     = Err (KeyError ITEM_KEY_MEDIA_TYPE)
  /\ (forall msg,
        _get_stream_url (H := sample_const) sample_client series_1
        <> Err (BrowseError msg))
  /\ async_resolve_media (H := sample_const) sample_guess_type sample_source
       (mkMediaSourceItem "series1")
     = Err (KeyError ITEM_KEY_MEDIA_TYPE).
Proof.
  split; [reflexivity |]. split; [reflexivity |]. split; [reflexivity |].
  split; [discriminate |]. split; [discriminate |].
  split; [reflexivity |]. split; [intros msg; discriminate |].
  vm_compute. reflexivity.
Qed.

(** C6, amended. The stream resolver raises [BrowseError] exactly when the
    item has a media type that is neither audio nor video, and an id; the
    message names the type.  An item without media type raises [KeyError]
    for that key, and one with a media type and without id raises
    [KeyError] for the id.  For an item with an id, audio gives the
    client's audio stream URL for the id and video the video stream URL,
    unchanged.  [resolve] passes every error of the stream resolver on to
    its caller. *)
Theorem C6_stream_url `{Const} (guess_type : string -> option string)
    (c : JellyfinClient) (media_item : Item) :
  (forall msg,
     _get_stream_url c media_item = Err (BrowseError msg)
     <-> exists media_type,
           MediaType media_item = Some media_type
           /\ is_Some (Id media_item)
           /\ media_type <> MEDIA_TYPE_AUDIO /\ media_type <> MEDIA_TYPE_VIDEO
           /\ msg = "Unsupported media type " ++ media_type)
  /\ (MediaType media_item = None ->
      _get_stream_url c media_item = Err (KeyError ITEM_KEY_MEDIA_TYPE))
  /\ (is_Some (MediaType media_item) -> Id media_item = None ->
      _get_stream_url c media_item = Err (KeyError ITEM_KEY_ID))
  /\ (forall item_id,
        Id media_item = Some item_id ->
        (MediaType media_item = Some MEDIA_TYPE_AUDIO ->
         _get_stream_url c media_item = Ok (audio_url c item_id))
        /\ (MediaType media_item = Some MEDIA_TYPE_VIDEO ->
            MEDIA_TYPE_VIDEO <> MEDIA_TYPE_AUDIO ->
            _get_stream_url c media_item = Ok (video_url c item_id)))
  /\ (forall self item e,
        client self = Ok (Some c) ->
        get_item c (item_identifier item) = Ok media_item ->
        _get_stream_url c media_item = Err e ->
        async_resolve_media guess_type self item = Err e).
Proof.
  split; [| split; [| split; [| split]]].
  - intros msg. unfold _get_stream_url. split.
    + destruct (MediaType media_item) as [mt|]; [| discriminate].
      destruct (Id media_item) as [id|]; [| discriminate]. simpl.
      destruct (String.eqb_spec mt MEDIA_TYPE_AUDIO); [discriminate |].
      destruct (String.eqb_spec mt MEDIA_TYPE_VIDEO); [discriminate |].
      intros [= <-]. exists mt. eauto.
    + intros (mt & -> & [id ->] & Ha & Hv & ->). simpl.
      by rewrite !eqb_false_of_neq.
  - unfold _get_stream_url. by intros ->.
  - unfold _get_stream_url. by intros [mt ->] ->.
  - intros item_id Hid. unfold _get_stream_url. rewrite Hid. split.
    + intros ->. simpl. by rewrite String.eqb_refl.
    + intros -> Hne. simpl.
      by rewrite (eqb_false_of_neq _ _ Hne), String.eqb_refl.
  - intros self item e Hc Hget Hurl. unfold async_resolve_media.
    rewrite Hc. simpl. rewrite Hget. simpl. by rewrite Hurl.
Qed.

Lemma C6_stream_url_witness :
  _get_stream_url (H := sample_const) sample_client track_1
  = Ok (audio_url sample_client "track1")
  /\ _get_stream_url (H := sample_const) sample_client movie_1
     = Ok (video_url sample_client "movie1")
  /\ _get_stream_url (H := sample_const) sample_client photo_1
     = Err (BrowseError "Unsupported media type Photo")
  /\ async_resolve_media (H := sample_const) sample_guess_type sample_source
       (mkMediaSourceItem "photo1")
     = Err (BrowseError "Unsupported media type Photo")
  /\ _get_stream_url (H := sample_const) sample_client series_1
     = Err (KeyError ITEM_KEY_MEDIA_TYPE)
  /\ _get_stream_url (H := sample_const) sample_client anonymous_photo
     = Err (KeyError ITEM_KEY_ID).
Proof.
  split; [| split; [| split; [| split; [| split]]]].
  - destruct (C6_stream_url (H := sample_const) sample_guess_type sample_client
                track_1) as (_ & _ & _ & Hurl & _).
    by apply (Hurl "track1" eq_refl).
  - destruct (C6_stream_url (H := sample_const) sample_guess_type sample_client
                movie_1) as (_ & _ & _ & Hurl & _).
    destruct (Hurl "movie1" eq_refl) as [_ Hv].
    apply Hv; [reflexivity | discriminate].
  - destruct (C6_stream_url (H := sample_const) sample_guess_type sample_client
                photo_1) as (Hiff & _).
    apply Hiff. exists "Photo".
    split; [reflexivity |]. split; [by exists "photo1" |].
    split; [discriminate |]. split; [discriminate | reflexivity].
  - destruct (C6_stream_url (H := sample_const) sample_guess_type sample_client
                photo_1) as (_ & _ & _ & _ & Hres).
    by apply (Hres sample_source (mkMediaSourceItem "photo1")).
  - destruct (C6_stream_url (H := sample_const) sample_guess_type sample_client
                series_1) as (_ & Hnone & _).
    by apply Hnone.
  - destruct (C6_stream_url (H := sample_const) sample_guess_type sample_client
                anonymous_photo) as (_ & _ & Hid & _).
    apply Hid; [by exists "Photo" | reflexivity].
Defined.

(** ** Resolution and its assertion *)

(** C9, as stated, fails: the photo of the sample catalogue has no
    derivable MIME type, yet [resolve] does not reach its assertion; the
    stream resolver, which runs first, raises [BrowseError]. *)
Lemma C9_counterexample :
  get_item sample_client "photo1" = Ok photo_1
  /\ _media_mime_type sample_guess_type photo_1 = None
  /\ async_resolve_media (H := sample_const) sample_guess_type sample_source
       (mkMediaSourceItem "photo1")
     = Err (BrowseError "Unsupported media type Photo")
  /\ async_resolve_media (H := sample_const) sample_guess_type sample_source
       (mkMediaSourceItem "photo1")
     <> Err AssertionError.
Proof.
  split; [reflexivity |]. split; [reflexivity |].
  split; [vm_compute; reflexivity |].
  intros E. vm_compute in E. discriminate E.
Qed.

(** The stream resolver raises [KeyError] or [BrowseError], never the
    assertion's error. *)
Lemma _get_stream_url_Err `{Const} (c : JellyfinClient) (media_item : Item)
    (e : exn) :
  _get_stream_url c media_item = Err e ->
  e = KeyError ITEM_KEY_MEDIA_TYPE \/ e = KeyError ITEM_KEY_ID
  \/ exists media_type,
       MediaType media_item = Some media_type
       /\ e = BrowseError ("Unsupported media type " ++ media_type).
Proof.
  unfold _get_stream_url.
  destruct (MediaType media_item) as [mt|]; simpl; [| intros [= <-]; auto].
  destruct (Id media_item) as [id|]; simpl; [| intros [= <-]; auto].
  repeat case_match; intros [= <-]. eauto.
Qed.

(** The stream URL resolves exactly for an item with an id whose media
    type is audio or video. *)
Lemma _get_stream_url_Ok `{Const} (c : JellyfinClient) (media_item : Item) :
  (exists stream_url, _get_stream_url c media_item = Ok stream_url)
  <-> is_Some (Id media_item)
      /\ (MediaType media_item = Some MEDIA_TYPE_AUDIO
          \/ MediaType media_item = Some MEDIA_TYPE_VIDEO).
Proof.
  unfold _get_stream_url. split.
  - intros [stream_url Hurl].
    destruct (MediaType media_item) as [mt|]; [| discriminate].
    destruct (Id media_item) as [id|]; [| discriminate]. simpl in Hurl.
    split; [eauto |].
    destruct (String.eqb_spec mt MEDIA_TYPE_AUDIO) as [-> |]; [by left |].
    destruct (String.eqb_spec mt MEDIA_TYPE_VIDEO) as [-> |]; [by right |].
    discriminate.
  - intros [[id ->] [-> | ->]]; simpl.
    + rewrite String.eqb_refl. eauto.
    + rewrite String.eqb_refl. case_match; eauto.
Qed.

(** C9, amended. For a fetched item whose stream URL resolves, that is an
    item with an id whose media type is audio or video: when the resolver
    gives a MIME type the assertion holds and [resolve] returns the stream
    URL with that type; when it gives none, [resolve] fails at the
    assertion.  For a fetched item whose stream URL does not resolve,
    [resolve] fails with the error of the stream resolver, which is not
    the assertion's and is [BrowseError] for a media type that is neither
    audio nor video, whatever the MIME resolver gives. *)
Theorem C9_resolve `{Const} (guess_type : string -> option string)
    (self : JellyfinSource) (c : JellyfinClient) (item : MediaSourceItem)
    (media_item : Item) :
  client self = Ok (Some c) ->
  get_item c (item_identifier item) = Ok media_item ->
  ((exists stream_url, _get_stream_url c media_item = Ok stream_url)
   <-> is_Some (Id media_item)
       /\ (MediaType media_item = Some MEDIA_TYPE_AUDIO
           \/ MediaType media_item = Some MEDIA_TYPE_VIDEO))
  /\ (forall stream_url,
        _get_stream_url c media_item = Ok stream_url ->
        (forall mime,
           _media_mime_type guess_type media_item = Some mime ->
           async_resolve_media guess_type self item
           = Ok (mkPlayMedia stream_url mime))
        /\ (_media_mime_type guess_type media_item = None ->
            async_resolve_media guess_type self item = Err AssertionError))
  /\ (forall e,
        _get_stream_url c media_item = Err e ->
        async_resolve_media guess_type self item = Err e
        /\ e <> AssertionError)
  /\ (forall item_id media_type,
        Id media_item = Some item_id ->
        MediaType media_item = Some media_type ->
        media_type <> MEDIA_TYPE_AUDIO ->
        media_type <> MEDIA_TYPE_VIDEO ->
        async_resolve_media guess_type self item
        = Err (BrowseError ("Unsupported media type " ++ media_type))).
Proof.
  intros Hc Hget.
  assert (Hresolve : async_resolve_media guess_type self item
                     = (stream_url <-- _get_stream_url c media_item ;;
                        match _media_mime_type guess_type media_item with
                        | None => Err AssertionError
                        | Some mime_type => Ok (mkPlayMedia stream_url mime_type)
                        end)).
  { unfold async_resolve_media. rewrite Hc. simpl. by rewrite Hget. }
  rewrite Hresolve. split; [apply _get_stream_url_Ok |]. split; [| split].
  - intros stream_url ->. simpl.
    split; [intros mime -> | intros ->]; reflexivity.
  - intros e Hurl. rewrite Hurl. split; [reflexivity |].
    apply _get_stream_url_Err in Hurl as [-> | [-> | (mt & _ & ->)]];
      discriminate.
  - intros item_id media_type Hid Hmt Ha Hv.
    unfold _get_stream_url. rewrite Hid, Hmt. simpl.
    by rewrite !eqb_false_of_neq.
Qed.

Lemma C9_resolve_witness :
  async_resolve_media (H := sample_const) sample_guess_type sample_source
    (mkMediaSourceItem "track1")
  = Ok (mkPlayMedia "/Audio/track1/stream" "audio/mpeg")
  /\ async_resolve_media (H := sample_const) sample_guess_type sample_source
       (mkMediaSourceItem "track2")
     = Err AssertionError
  /\ async_resolve_media (H := sample_const) sample_guess_type sample_source
       (mkMediaSourceItem "photo1")
     = Err (BrowseError "Unsupported media type Photo")
  /\ (async_resolve_media (H := sample_const) sample_guess_type sample_source
        (mkMediaSourceItem "series1")
      = Err (KeyError ITEM_KEY_MEDIA_TYPE)
      /\ KeyError ITEM_KEY_MEDIA_TYPE <> AssertionError).
Proof.
  split; [| split; [| split]].
  - destruct (C9_resolve (H := sample_const) sample_guess_type sample_source
                sample_client (mkMediaSourceItem "track1") track_1
                eq_refl eq_refl) as (_ & Hok & _).
    by apply (Hok "/Audio/track1/stream" eq_refl).
  - destruct (C9_resolve (H := sample_const) sample_guess_type sample_source
                sample_client (mkMediaSourceItem "track2") track_bare
                eq_refl eq_refl) as (_ & Hok & _).
    by apply (Hok "/Audio/track2/stream" eq_refl).
  - destruct (C9_resolve (H := sample_const) sample_guess_type sample_source
                sample_client (mkMediaSourceItem "photo1") photo_1
                eq_refl eq_refl) as (_ & _ & _ & Hother).
    apply (Hother "photo1" "Photo"); [reflexivity | reflexivity | |];
      discriminate.
  - destruct (C9_resolve (H := sample_const) sample_guess_type sample_source
                sample_client (mkMediaSourceItem "series1") series_1
                eq_refl eq_refl) as (_ & _ & Herr & _).
    by apply (Herr (KeyError ITEM_KEY_MEDIA_TYPE)).
Defined.

(** ** Container children *)

Section ContainerFacts.
Context `{Const}.
Variable guess_type : string -> option string.
Variable c : JellyfinClient.

Lemma Forall_sorted_by_name (P : Item -> Prop) items :
  Forall P items -> Forall P (sorted_by_name items).
Proof using Type.
  apply Permutation_Forall. symmetry.
  apply (sorted_Permutation (tuple_lt String.ltb) name_key).
Qed.

Lemma Forall_sorted_by_index (P : Item -> Prop) items :
  Forall P items -> Forall P (sorted_by_index items).
Proof using Type.
  apply Permutation_Forall. symmetry.
  apply (sorted_Permutation (tuple_lt Z.ltb) index_key).
Qed.

Lemma build_containers_unfold kind parent :
  build_containers guess_type kind c parent
  = (items <-- _get_children c parent (container_item_type kind) ;;
     traverse
       match kind with
       | Artists => fun item => _build_artist guess_type c item false
       | Albums => fun item => _build_album guess_type c item false
       | Shows => fun item => _build_series guess_type c item false
       | Seasons => fun item => _build_season guess_type c item false
       end
       match kind with
       | Artists | Albums | Shows => sorted_by_name items
       | Seasons => sorted_by_index items
       end).
Proof using Type. by destruct kind. Qed.

(** A list comprehension over constructors raises [KeyError] as soon as
    one of the items has no name. *)
Lemma traverse_unnamed (build : Item -> result BrowseMediaSource) items item :
  (forall i e, build i = Err e -> exists k, e = KeyError k) ->
  (forall i, Name i = None -> exists k, build i = Err (KeyError k)) ->
  In item items -> Name item = None ->
  exists k, traverse build items = Err (KeyError k).
Proof using Type.
  intros Herr Hunnamed Hin Hname.
  destruct (Hunnamed item Hname) as [k Hk].
  destruct (traverse_Err build items item Hin (ex_intro _ _ Hk))
    as (i & e & _ & Hi & ->).
  destruct (Herr i e Hi) as [k' ->]. eauto.
Qed.

Lemma _build_albums_Ok parent albums :
  _get_children c parent ITEM_TYPE_ALBUM = Ok albums ->
  (forall nodes,
     _build_albums guess_type c parent = Ok nodes ->
     Forall2 (container_node ALBUM) (sorted_by_name albums) nodes)
  /\ (Forall buildable albums ->
      exists nodes, _build_albums guess_type c parent = Ok nodes).
Proof using Type.
  intros Hg. unfold _build_albums. rewrite Hg. simpl. split.
  - intros nodes Ht. apply traverse_Ok_Forall2 in Ht.
    eapply Forall2_impl; [exact Ht |]. apply _build_album_Ok.
  - intros Hall. apply traverse_total.
    apply Forall_sorted_by_name in Hall.
    eapply Forall_impl; [exact Hall |].
    intros item Hb. by apply (constructors_total guess_type c item Hb).
Qed.

Lemma _build_artists_Ok parent artists :
  _get_children c parent ITEM_TYPE_ARTIST = Ok artists ->
  (forall nodes,
     _build_artists guess_type c parent = Ok nodes ->
     Forall2 (container_node ARTIST) (sorted_by_name artists) nodes)
  /\ (Forall buildable artists ->
      exists nodes, _build_artists guess_type c parent = Ok nodes).
Proof using Type.
  intros Hg. unfold _build_artists. rewrite Hg. simpl. split.
  - intros nodes Ht. apply traverse_Ok_Forall2 in Ht.
    eapply Forall2_impl; [exact Ht |]. apply _build_artist_Ok.
  - intros Hall. apply traverse_total.
    apply Forall_sorted_by_name in Hall.
    eapply Forall_impl; [exact Hall |].
    intros item Hb. by apply (constructors_total guess_type c item Hb).
Qed.

Lemma _build_seasons_Ok parent seasons nodes :
  _get_children c parent ITEM_TYPE_SEASON = Ok seasons ->
  _build_seasons guess_type c parent = Ok nodes ->
  Forall2 (container_node TV_SHOW) (sorted_by_index seasons) nodes.
Proof using Type.
  intros Hg. unfold _build_seasons. rewrite Hg. simpl.
  intros Ht. apply traverse_Ok_Forall2 in Ht.
  eapply Forall2_impl; [exact Ht |]. apply _build_season_Ok.
Qed.

(** The children of a series: fetched as seasons, announced as seasons by
    the parent, yet every node is of class [TV_SHOW]. *)
Lemma _build_series_children series node :
  _build_series guess_type c series true = Ok node ->
  children_media_class node = Some SEASON
  /\ exists series_id seasons nodes,
       Id series = Some series_id
       /\ _get_children c series_id ITEM_TYPE_SEASON = Ok seasons
       /\ children node = Some nodes
       /\ Forall2 (container_node TV_SHOW) (sorted_by_index seasons) nodes.
Proof using Type.
  unfold _build_series. intros Hb.
  apply bind_Ok_inv in Hb as (series_id & Hid & Hb).
  apply bind_Ok_inv in Hb as (title & _ & Hb).
  apply bind_Ok_inv in Hb as (thumb & _ & Hb).
  apply bind_Ok_inv in Hb as (nodes & Hnodes & [= <-]).
  apply getitem_Ok in Hid. split; [reflexivity |].
  destruct (_get_children c series_id ITEM_TYPE_SEASON) as [seasons|e] eqn:Hg.
  - exists series_id, seasons, nodes. repeat split; try done.
    by apply (_build_seasons_Ok series_id).
  - unfold _build_seasons in Hnodes. rewrite Hg in Hnodes. discriminate.
Qed.

Lemma _build_library_Ok library n :
  _build_library guess_type c library false = Ok n ->
  container_node DIRECTORY library n.
Proof using Type.
  unfold _build_library, _build_music_library, _build_movie_library,
    _build_tv_library, container_node.
  intros. run_monad; repeat split; done.
Qed.

Lemma _build_library_total library :
  is_Some (CollectionType library) -> is_Some (Id library) ->
  is_Some (Name library) ->
  exists n, _build_library guess_type c library false = Ok n.
Proof using Type.
  intros [ct Hct] [id Hid] [nm Hnm].
  unfold _build_library, _build_music_library, _build_movie_library,
    _build_tv_library.
  rewrite Hct, Hid, Hnm. simpl. repeat case_match; eauto.
Qed.

Lemma supported_library_spec library :
  supported_library library = true
  <-> exists collection_type,
        CollectionType library = Some collection_type
        /\ collection_type ∈ SUPPORTED_COLLECTION_TYPES.
Proof using Type.
  unfold supported_library. destruct (CollectionType library) as [ct|].
  - rewrite bool_decide_eq_true. split; [eauto |].
    by intros (ct' & [= <-] & Hin).
  - split; [discriminate | by intros (? & [=] & _)].
Qed.
End ContainerFacts.

(** C4 on the sample catalogue: browsing the series gives a node that
    announces children of class [SEASON], while the child built for its
    season has class [TV_SHOW]. *)
Lemma C4_season_child_class :
  exists node child,
    async_browse_media (H := sample_const) sample_guess_type sample_source
      (mkMediaSourceItem "series1") = Ok node
    /\ children_media_class node = Some SEASON
    /\ children node = Some [child]
    /\ identifier child = Some "season1"
    /\ media_class child = TV_SHOW
    /\ media_class child <> SEASON.
Proof.
  eexists _, _. split; [vm_compute; reflexivity |].
  repeat split. discriminate.
Qed.

(** ** The entry point of browsing *)

(** The root is the fixed directory node over the nodes built, without
    their children, from the supported folders of the listing; a listing
    that fails makes the root fail. *)
Lemma _build_libraries_listing `{Const} (guess_type : string -> option string)
    (c : JellyfinClient) :
  (forall e, get_media_folders c = Err e -> _build_libraries guess_type c = Err e)
  /\ (forall folders,
        get_media_folders c = Ok (mkResponse (Some folders)) ->
        _build_libraries guess_type c
        = (children <-- traverse
                          (fun library => _build_library guess_type c library false)
                          (List.filter supported_library folders) ;;
           Ok (mkBrowse DOMAIN None DIRECTORY (Some MEDIA_TYPE_NONE) name
                 false true None (Some DIRECTORY) (Some children)))).
Proof.
  unfold _build_libraries, _get_libraries. split.
  - by intros e ->.
  - by intros folders ->.
Qed.

(** C5. [browse] raises [BrowseError] when there is no client.  With an
    empty identifier it returns the root built from the library listing:
    it fails as the listing does, and where the folders are listed the
    root is the fixed directory node whose children are the nodes built,
    without children of their own, from the folders of a supported
    collection type, one for each, in order.  Otherwise it fetches the
    item and dispatches on its type, with [include_children] true, to the
    library, artist, album, series or season builder, and raises
    [BrowseError] naming the type for every other type. *)
Theorem C5_browse `{Const} (guess_type : string -> option string)
    (self : JellyfinSource) (item : MediaSourceItem) :
  (client self = Ok None ->
   async_browse_media guess_type self item
   = Err (BrowseError "Jellyfin not initialized"))
  /\ (forall c,
        client self = Ok (Some c) ->
        (item_identifier item = "" ->
         async_browse_media guess_type self item = _build_libraries guess_type c
         /\ (forall e,
               get_media_folders c = Err e ->
               async_browse_media guess_type self item = Err e)
         /\ (forall folders,
               get_media_folders c = Ok (mkResponse (Some folders)) ->
               async_browse_media guess_type self item
               = (children <-- traverse
                                 (fun library =>
                                    _build_library guess_type c library false)
                                 (List.filter supported_library folders) ;;
                  Ok (mkBrowse DOMAIN None DIRECTORY (Some MEDIA_TYPE_NONE)
                        name false true None (Some DIRECTORY)
                        (Some children)))
               /\ (forall root,
                     async_browse_media guess_type self item = Ok root ->
                     exists nodes,
                       root = mkBrowse DOMAIN None DIRECTORY
                                (Some MEDIA_TYPE_NONE) name false true None
                                (Some DIRECTORY) (Some nodes)
                       /\ Forall2 (container_node DIRECTORY)
                            (List.filter supported_library folders) nodes)
               /\ (Forall (fun library =>
                             supported_library library = true ->
                             is_Some (Id library) /\ is_Some (Name library))
                          folders ->
                   exists root, async_browse_media guess_type self item = Ok root)))
        /\ (forall media_item item_type,
              item_identifier item <> "" ->
              get_item c (item_identifier item) = Ok media_item ->
              Type_ media_item = Some item_type ->
              (item_type ∉ [ITEM_TYPE_LIBRARY; ITEM_TYPE_ARTIST; ITEM_TYPE_ALBUM;
                            ITEM_TYPE_SERIES; ITEM_TYPE_SEASON] ->
               async_browse_media guess_type self item
               = Err (BrowseError ("Unsupported item type " ++ item_type)))
              /\ (NoDup [ITEM_TYPE_LIBRARY; ITEM_TYPE_ARTIST; ITEM_TYPE_ALBUM;
                         ITEM_TYPE_SERIES; ITEM_TYPE_SEASON] ->
                  (item_type = ITEM_TYPE_LIBRARY ->
                   async_browse_media guess_type self item
                   = _build_library guess_type c media_item true)
                  /\ (item_type = ITEM_TYPE_ARTIST ->
                      async_browse_media guess_type self item
                      = _build_artist guess_type c media_item true)
                  /\ (item_type = ITEM_TYPE_ALBUM ->
                      async_browse_media guess_type self item
                      = _build_album guess_type c media_item true)
                  /\ (item_type = ITEM_TYPE_SERIES ->
                      async_browse_media guess_type self item
                      = _build_series guess_type c media_item true)
                  /\ (item_type = ITEM_TYPE_SEASON ->
                      async_browse_media guess_type self item
                      = _build_season guess_type c media_item true)))).
Proof.
  split.
  - unfold async_browse_media. by intros ->.
  - intros c Hc. split.
    + intros Hid.
      assert (Hroot : async_browse_media guess_type self item
                      = _build_libraries guess_type c).
      { unfold async_browse_media. rewrite Hc. simpl. by rewrite Hid. }
      destruct (_build_libraries_listing guess_type c) as [Herr Hlist].
      rewrite Hroot. split; [reflexivity |]. split; [exact Herr |].
      intros folders Hfolders. rewrite (Hlist folders Hfolders).
      split; [reflexivity |]. split.
      * intros root (nodes & Hnodes & [= <-])%bind_Ok_inv.
        exists nodes. split; [reflexivity |].
        apply traverse_Ok_Forall2 in Hnodes.
        eapply Forall2_impl; [exact Hnodes |].
        apply _build_library_Ok.
      * intros Hall.
        destruct (traverse_total
                    (fun library => _build_library guess_type c library false)
                    (List.filter supported_library folders)) as [nodes ->];
          [| simpl; eauto].
        apply Forall_forall. intros library Hin.
        apply list_elem_of_In, filter_In in Hin as [Hin Hs].
        rewrite Forall_forall in Hall.
        destruct (Hall library) as [? ?]; [by apply list_elem_of_In | done |].
        apply _build_library_total; try done.
        apply supported_library_spec in Hs as (ct & -> & _). eauto.
    + intros media_item item_type Hid Hget Htype. split.
      * rewrite (browse_fetched guess_type self c item media_item item_type)
          by assumption.
        rewrite !not_elem_of_cons. intros (H1 & H2 & H3 & H4 & H5 & _).
        by rewrite !eqb_false_of_neq.
      * by apply browse_known_type.
Qed.

Lemma C5_browse_witness :
  async_browse_media (H := sample_const) sample_guess_type uninitialized_source
    (mkMediaSourceItem "album1")
  = Err (BrowseError "Jellyfin not initialized")
  /\ async_browse_media (H := sample_const) sample_guess_type sample_source
       (mkMediaSourceItem "track1")
     = Err (BrowseError "Unsupported item type Audio")
  /\ async_browse_media (H := sample_const) sample_guess_type sample_source
       (mkMediaSourceItem "album1")
     = _build_album (H := sample_const) sample_guess_type sample_client album_1 true
  /\ (exists root nodes,
        async_browse_media (H := sample_const) sample_guess_type sample_source
          (mkMediaSourceItem "") = Ok root
        /\ root = mkBrowse "jellyfin" None DIRECTORY (Some "") "Jellyfin"
                    false true None (Some DIRECTORY) (Some nodes)
        /\ Forall2 (container_node (H := sample_const) DIRECTORY)
             [music_library] nodes)
  /\ async_browse_media (H := sample_const) sample_guess_type failing_source
       (mkMediaSourceItem "")
     = Err (ClientError "connection refused").
Proof.
  split; [|split; [|split; [|split]]].
  - apply (C5_browse (H := sample_const)). reflexivity.
  - destruct (C5_browse (H := sample_const) sample_guess_type sample_source
                (mkMediaSourceItem "track1")) as [_ Hc].
    destruct (Hc sample_client eq_refl) as [_ Hitem].
    destruct (Hitem track_1 "Audio") as [Hother _];
      [discriminate | reflexivity | reflexivity |].
    apply Hother. rewrite !not_elem_of_cons.
    repeat split; try (intros E; vm_compute in E; discriminate E).
    apply not_elem_of_nil.
  - destruct (C5_browse (H := sample_const) sample_guess_type sample_source
                (mkMediaSourceItem "album1")) as [_ Hc].
    destruct (Hc sample_client eq_refl) as [_ Hitem].
    destruct (Hitem album_1 "MusicAlbum") as [_ Hknown];
      [discriminate | reflexivity | reflexivity |].
    apply Hknown; [|reflexivity].
    rewrite !NoDup_cons, !not_elem_of_cons.
    repeat split; try (intros E; vm_compute in E; discriminate E);
      try apply not_elem_of_nil.
    apply NoDup_nil_2.
  - destruct (C5_browse (H := sample_const) sample_guess_type sample_source
                (mkMediaSourceItem "")) as [_ Hc].
    destruct (Hc sample_client eq_refl) as [Hroot _].
    destruct (Hroot eq_refl) as (_ & _ & Hlist).
    destruct (Hlist [music_library; photo_library; mixed_library] eq_refl)
      as (_ & Hnodes & Htotal).
    destruct Htotal as [root Hb].
    { repeat constructor; intros; vm_compute; eauto. }
    destruct (Hnodes root Hb) as (nodes & Hr & Hall).
    exists root, nodes. split; [exact Hb |]. split; [exact Hr | exact Hall].
  - destruct (C5_browse (H := sample_const) sample_guess_type failing_source
                (mkMediaSourceItem "")) as [_ Hc].
    destruct (Hc failing_client eq_refl) as [Hroot _].
    destruct (Hroot eq_refl) as (_ & Herr & _).
    by apply Herr.
Defined.

(** ** The root and the music library *)

(** C7. A root browse that returns, returns a node without identifier,
    not playable, expandable, of class [DIRECTORY], announcing children of
    class [DIRECTORY], with one child, in order, for each top-level folder
    whose collection type is present and in the supported list, and none
    for the others.  It returns whenever the folders are listed and the
    supported ones have an id and a name. *)
Theorem C7_root_browse `{Const} (guess_type : string -> option string)
    (self : JellyfinSource) (c : JellyfinClient) (item : MediaSourceItem) :
  client self = Ok (Some c) ->
  item_identifier item = "" ->
  (forall library,
     supported_library library = true
     <-> exists collection_type,
           CollectionType library = Some collection_type
           /\ collection_type ∈ SUPPORTED_COLLECTION_TYPES)
  /\ (forall node,
        async_browse_media guess_type self item = Ok node ->
        identifier node = None /\ can_play node = false
        /\ can_expand node = true /\ media_class node = DIRECTORY
        /\ children_media_class node = Some DIRECTORY
        /\ exists folders nodes,
             get_media_folders c = Ok (mkResponse (Some folders))
             /\ children node = Some nodes
             /\ Forall2 (container_node DIRECTORY)
                  (List.filter supported_library folders) nodes)
  /\ (forall folders,
        get_media_folders c = Ok (mkResponse (Some folders)) ->
        Forall (fun library =>
                  supported_library library = true ->
                  is_Some (Id library) /\ is_Some (Name library)) folders ->
        exists node, async_browse_media guess_type self item = Ok node).
Proof.
  intros Hc Hid. unfold async_browse_media. rewrite Hc, Hid. simpl.
  unfold _build_libraries, _get_libraries. split; [|split].
  - apply supported_library_spec.
  - intros node Hb.
    apply bind_Ok_inv in Hb as (libraries & Hlibs & Hb).
    apply bind_Ok_inv in Hb as (nodes & Hnodes & [= <-]).
    apply bind_Ok_inv in Hlibs as ([folders] & Hfolders & Hlibs).
    apply bind_Ok_inv in Hlibs as (folders' & Hitems & [= <-]).
    apply getitem_Ok in Hitems. simpl in Hitems. subst folders.
    repeat split. exists folders', nodes. repeat split; [assumption |].
    apply traverse_Ok_Forall2 in Hnodes.
    eapply Forall2_impl; [exact Hnodes |]. apply _build_library_Ok.
  - intros folders -> Hall. simpl.
    destruct (traverse_total
                (fun library => _build_library guess_type c library false)
                (List.filter supported_library folders)) as [nodes ->];
      [|simpl; eauto].
    apply Forall_forall. intros library Hin.
    apply list_elem_of_In, filter_In in Hin as [Hin Hs].
    rewrite Forall_forall in Hall.
    destruct (Hall library) as [? ?]; [by apply list_elem_of_In | done |].
    apply _build_library_total; try done.
    apply supported_library_spec in Hs as (ct & -> & _). eauto.
Qed.

Lemma C7_root_browse_witness :
  exists node child,
    async_browse_media (H := sample_const) sample_guess_type sample_source
      (mkMediaSourceItem "") = Ok node
    /\ identifier node = None /\ can_play node = false
    /\ can_expand node = true /\ media_class node = DIRECTORY
    /\ children_media_class node = Some DIRECTORY
    /\ children node = Some [child]
    /\ identifier child = Some "lib1".
Proof.
  destruct (C7_root_browse (H := sample_const) sample_guess_type sample_source
              sample_client (mkMediaSourceItem "") eq_refl eq_refl)
    as (_ & Hnode & Htotal).
  destruct (Htotal [music_library; photo_library; mixed_library] eq_refl)
    as [node Hb].
  { repeat constructor; intros; vm_compute; eauto. }
  destruct (Hnode node Hb) as (Hi & Hp & He & Hm & Hcm & _).
  vm_compute in Hb. injection Hb as <-.
  eexists _, _. repeat split.
Defined.

(** C8. Browsing a music library with its children: when the artist query
    is empty, the node announces children of class [ALBUM] and its
    children are the album nodes built from the albums fetched for the
    library itself; when there is at least one artist, it announces
    [ARTIST] and its children are the artist nodes. *)
Theorem C8_music_library `{Const} (guess_type : string -> option string)
    (c : JellyfinClient) (library : Item) (library_id : string) :
  Id library = Some library_id ->
  is_Some (Name library) ->
  (forall albums,
     _get_children c library_id ITEM_TYPE_ARTIST = Ok [] ->
     _get_children c library_id ITEM_TYPE_ALBUM = Ok albums ->
     (forall node,
        _build_music_library guess_type c library true = Ok node ->
        children_media_class node = Some ALBUM
        /\ exists nodes,
             children node = Some nodes
             /\ Forall2 (container_node ALBUM) (sorted_by_name albums) nodes)
     /\ (Forall buildable albums ->
         exists node, _build_music_library guess_type c library true = Ok node))
  /\ (forall artists,
        artists <> [] ->
        _get_children c library_id ITEM_TYPE_ARTIST = Ok artists ->
        (forall node,
           _build_music_library guess_type c library true = Ok node ->
           children_media_class node = Some ARTIST
           /\ exists nodes,
                children node = Some nodes
                /\ Forall2 (container_node ARTIST) (sorted_by_name artists) nodes)
        /\ (Forall buildable artists ->
            exists node,
              _build_music_library guess_type c library true = Ok node))
  /\ (forall self item,
        client self = Ok (Some c) ->
        item_identifier item <> "" ->
        get_item c (item_identifier item) = Ok library ->
        Type_ library = Some ITEM_TYPE_LIBRARY ->
        CollectionType library = Some COLLECTION_TYPE_MUSIC ->
        async_browse_media guess_type self item
        = _build_music_library guess_type c library true).
Proof.
  intros Hid [library_name Hname]. split; [|split].
  - intros albums Hartists Halbums.
    destruct (_build_albums_Ok guess_type c library_id albums Halbums)
      as [Hrel Htotal].
    unfold _build_music_library. rewrite Hid, Hname. simpl.
    unfold _build_artists. rewrite Hartists. simpl. split.
    + intros node Hb. apply bind_Ok_inv in Hb as (nodes & Hnodes & [= <-]).
      split; [reflexivity |]. exists nodes. split; [reflexivity | auto].
    + intros Hall. destruct (Htotal Hall) as [nodes ->]. simpl. eauto.
  - intros artists Hne Hartists.
    destruct (_build_artists_Ok guess_type c library_id artists Hartists)
      as [Hrel Htotal].
    unfold _build_music_library. rewrite Hid, Hname. simpl.
    assert (Hcons : forall nodes,
              _build_artists guess_type c library_id = Ok nodes -> nodes <> []).
    { intros nodes Hn -> . apply Hrel in Hn. apply Forall2_nil_inv_r in Hn.
      apply Hne. apply Permutation_nil.
      rewrite <- Hn.
      apply (sorted_Permutation (tuple_lt String.ltb) name_key). }
    split.
    + intros node Hb. apply bind_Ok_inv in Hb as (nodes & Hnodes & Hb).
      destruct nodes as [|n nodes]; [by destruct (Hcons [] Hnodes) |].
      injection Hb as <-. split; [reflexivity |].
      exists (n :: nodes). split; [reflexivity | auto].
    + intros Hall. destruct (Htotal Hall) as [nodes Hn]. rewrite Hn. simpl.
      destruct nodes as [|n nodes]; [by destruct (Hcons [] Hn) | eauto].
  - intros self item Hc Hident Hget Htype Hct. unfold async_browse_media.
    rewrite Hc. simpl. rewrite (eqb_false_of_neq _ _ Hident), Hget. simpl.
    rewrite Htype. simpl. rewrite String.eqb_refl.
    unfold _build_library. rewrite Hct. simpl. by rewrite String.eqb_refl.
Qed.

Lemma C8_music_library_witness :
  exists node first second,
    async_browse_media (H := sample_const) sample_guess_type sample_source
      (mkMediaSourceItem "lib1") = Ok node
    /\ children_media_class node = Some ALBUM
    /\ children node = Some [first; second]
    /\ media_class first = ALBUM /\ media_class second = ALBUM
    /\ title first = "A" /\ title second = "B".
Proof.
  destruct (C8_music_library (H := sample_const) sample_guess_type
              sample_client music_library "lib1" eq_refl
              (ex_intro _ "Music" eq_refl)) as (Halbums & _ & Hbrowse).
  destruct (Halbums [album_B; album_A] eq_refl eq_refl) as [Hnode Htotal].
  destruct Htotal as [node Hb].
  { repeat constructor; vm_compute; eauto. }
  destruct (Hnode node Hb) as [Hclass _].
  rewrite <- (Hbrowse sample_source (mkMediaSourceItem "lib1")) in Hb;
    [|reflexivity | discriminate | reflexivity | reflexivity | reflexivity].
  vm_compute in Hb. injection Hb as <-.
  eexists _, _, _. repeat split.
Defined.

(** ** Items without a name *)

Section UnnamedFacts.
Context `{Const}.
Variable guess_type : string -> option string.
Variable c : JellyfinClient.
Variable parent : string.
Variable items : list Item.
Variable item : Item.
Hypothesis item_in : In item items.
Hypothesis item_unnamed : Name item = None.

Lemma containers_unnamed kind :
  _get_children c parent (container_item_type kind) = Ok items ->
  exists k, build_containers guess_type kind c parent = Err (KeyError k).
Proof using item_in item_unnamed.
  intros Hg. rewrite build_containers_unfold, Hg. simpl.
  pose proof (constructors_Err guess_type c) as Herr.
  pose proof (fun i => constructors_unnamed guess_type c i false) as Hun.
  assert (Hname : In item (sorted_by_name items)).
  { eapply Permutation_in; [|exact item_in]. symmetry.
    apply (sorted_Permutation (tuple_lt String.ltb) name_key). }
  assert (Hindex : In item (sorted_by_index items)).
  { eapply Permutation_in; [|exact item_in]. symmetry.
    apply (sorted_Permutation (tuple_lt Z.ltb) index_key). }
  destruct kind;
    (eapply traverse_unnamed; [| |eassumption|exact item_unnamed]);
    try (intros i e Hi; apply (Herr i e); tauto);
    intros i Hi; destruct (Hun i Hi) as (?&?&?&?&?&?&?&_); assumption.
Qed.

Lemma leaves_unnamed kind :
  _get_children c parent (leaf_item_type kind) = Ok items ->
  is_Some (_media_mime_type guess_type item) ->
  exists k, build_leaves guess_type kind c parent = Err (KeyError k).
Proof using item_in item_unnamed.
  intros Hg Hmime. rewrite build_leaves_unfold, Hg. simpl.
  pose proof (constructors_Err guess_type c) as Herr.
  pose proof (fun i => constructors_unnamed guess_type c i false) as Hun.
  assert (Hkept : In item (List.filter (playable guess_type)
                             (leaf_sorted kind items))).
  { apply filter_In. split; [|by apply playable_spec].
    eapply Permutation_in; [|exact item_in]. symmetry.
    apply leaf_sorted_Permutation. }
  destruct kind;
    (eapply traverse_unnamed; [| |exact Hkept|exact item_unnamed]);
    try (intros i e Hi; apply (Herr i e); tauto);
    intros i Hi; destruct (Hun i Hi) as (?&?&?&_); assumption.
Qed.

(** A parent built with its children over a list that raises [KeyError]
    raises [KeyError] too. *)
Ltac parent_fails Hchildren :=
  let Ht := fresh "Ht" in
  let k := fresh "k" in
  match goal with
  | Hid : Id ?p = Some _ |- _ => rewrite Hid
  end;
  simpl;
  match goal with
  | |- context [getitem ITEM_KEY_NAME (Name ?p)] =>
      destruct (Name p); simpl; [|eauto]
  end;
  try match goal with
      | |- context [_get_thumbnail_url c ?p] =>
          destruct (_get_thumbnail_url c p) eqn:Ht; simpl;
          [|apply _get_thumbnail_url_Err in Ht as [k ->]; eauto]
      end;
  destruct Hchildren as [k Hchildren]; rewrite Hchildren; simpl; eauto.

Lemma parents_unnamed parent_item :
  Id parent_item = Some parent ->
  (_get_children c parent ITEM_TYPE_ALBUM = Ok items ->
   exists k, _build_artist guess_type c parent_item true = Err (KeyError k))
  /\ (_get_children c parent ITEM_TYPE_SEASON = Ok items ->
      exists k, _build_series guess_type c parent_item true = Err (KeyError k))
  /\ (_get_children c parent ITEM_TYPE_ARTIST = Ok items ->
      exists k,
        _build_music_library guess_type c parent_item true = Err (KeyError k))
  /\ (_get_children c parent ITEM_TYPE_ARTIST = Ok [] ->
      _get_children c parent ITEM_TYPE_ALBUM = Ok items ->
      exists k,
        _build_music_library guess_type c parent_item true = Err (KeyError k))
  /\ (_get_children c parent ITEM_TYPE_SERIES = Ok items ->
      exists k, _build_tv_library guess_type c parent_item true = Err (KeyError k))
  /\ (is_Some (_media_mime_type guess_type item) ->
      (_get_children c parent ITEM_TYPE_AUDIO = Ok items ->
       exists k, _build_album guess_type c parent_item true = Err (KeyError k))
      /\ (_get_children c parent ITEM_TYPE_EPISODE = Ok items ->
          exists k,
            _build_season guess_type c parent_item true = Err (KeyError k))
      /\ (_get_children c parent ITEM_TYPE_MOVIE = Ok items ->
          exists k,
            _build_movie_library guess_type c parent_item true
            = Err (KeyError k))).
Proof using item_in item_unnamed.
  intros Hid. repeat split.
  - intros Hg. pose proof (containers_unnamed Albums Hg) as Hc. simpl in Hc.
    unfold _build_artist. parent_fails Hc.
  - intros Hg. pose proof (containers_unnamed Seasons Hg) as Hc. simpl in Hc.
    unfold _build_series. parent_fails Hc.
  - intros Hg. pose proof (containers_unnamed Artists Hg) as Hc. simpl in Hc.
    unfold _build_music_library. parent_fails Hc.
  - intros Hnone Hg. pose proof (containers_unnamed Albums Hg) as Hc.
    simpl in Hc. unfold _build_music_library. rewrite Hid. simpl.
    destruct (Name parent_item); simpl; [|eauto].
    unfold _build_artists. rewrite Hnone. simpl.
    destruct Hc as [k ->]. simpl. eauto.
  - intros Hg. pose proof (containers_unnamed Shows Hg) as Hc. simpl in Hc.
    unfold _build_tv_library. parent_fails Hc.
  - intros Hg. pose proof (leaves_unnamed Tracks Hg H0) as Hc. simpl in Hc.
    unfold _build_album. parent_fails Hc.
  - intros Hg. pose proof (leaves_unnamed Episodes Hg H0) as Hc. simpl in Hc.
    unfold _build_season. parent_fails Hc.
  - intros Hg. pose proof (leaves_unnamed Movies Hg H0) as Hc. simpl in Hc.
    unfold _build_movie_library. parent_fails Hc.
Qed.
End UnnamedFacts.

(** C10, as stated, fails: the tracks fetched for the album of the sample
    catalogue contain a track without a name, and the list is built all
    the same, as is the album's node: the unnamed track has no media
    source and the filter drops it before its name is read. *)
Lemma C10_counterexample :
  _get_children (H := sample_const) sample_client "album1" "Audio"
  = Ok [track_bare; track_1]
  /\ Name track_bare = None
  /\ (exists node,
        _build_tracks (H := sample_const) sample_guess_type sample_client "album1"
        = Ok [node])
  /\ (exists node,
        async_browse_media (H := sample_const) sample_guess_type sample_source
          (mkMediaSourceItem "album1") = Ok node).
Proof.
  split; [reflexivity |]. split; [reflexivity |].
  split; eexists; vm_compute; reflexivity.
Qed.

(** The leaf list of a parent is built from the fetched items that the
    filter keeps, whenever these have the keys the constructor reads. *)
Lemma leaves_built `{Const} (guess_type : string -> option string)
    (kind : leaf_kind) (c : JellyfinClient) (parent : string)
    (items : list Item) :
  _get_children c parent (leaf_item_type kind) = Ok items ->
  Forall (fun item => playable guess_type item = true -> buildable item)
    items ->
  exists nodes,
    build_leaves guess_type kind c parent = Ok nodes
    /\ Forall2 (leaf_node guess_type (leaf_class kind))
         (List.filter (playable guess_type) (leaf_sorted kind items)) nodes.
Proof.
  intros Hitems Hall. rewrite build_leaves_unfold, Hitems. simpl.
  set (build := match kind with
                | Tracks => _build_track guess_type c
                | Movies => _build_movie guess_type c
                | Episodes => _build_episode guess_type c
                end).
  destruct (traverse_total build
              (List.filter (playable guess_type) (leaf_sorted kind items)))
    as [nodes Hnodes].
  { apply Forall_forall. intros item Hin.
    apply list_elem_of_In, filter_In in Hin as [Hin Hp].
    assert (Hb : buildable item).
    { rewrite Forall_forall in Hall. apply Hall; [| assumption].
      apply list_elem_of_In.
      exact (Permutation_in item (leaf_sorted_Permutation kind items) Hin). }
    destruct (constructors_total guess_type c item Hb) as (? & ? & ? & _).
    by destruct kind. }
  exists nodes. split; [exact Hnodes |].
  eapply leaf_list_nodes; [| exact Hnodes].
  subst build. destruct kind; simpl;
    eauto using _build_track_Ok, _build_movie_Ok, _build_episode_Ok.
Qed.

(** C10, amended. Every node constructor subscripts [Name] and raises
    [KeyError] on an item without it.  A fetched list of artists, albums,
    series or seasons that contains such an item raises [KeyError] when it
    is built, and so does a fetched list of tracks, movies or episodes
    that contains such an item with a derivable MIME type; the browse
    request that builds the list fails with that [KeyError].  In a fetched
    list of tracks, movies or episodes, an item without name and without
    derivable MIME type is not among the items the filter keeps, and the
    list is built, from the kept items alone, whenever these have the
    keys the constructor reads. *)
Theorem C10_unnamed_item `{Const} (guess_type : string -> option string)
    (c : JellyfinClient) (parent : string) (items : list Item) (item : Item) :
  In item items ->
  Name item = None ->
  (forall include_children,
     (exists k, _build_track guess_type c item = Err (KeyError k))
     /\ (exists k, _build_movie guess_type c item = Err (KeyError k))
     /\ (exists k, _build_episode guess_type c item = Err (KeyError k))
     /\ (exists k,
           _build_artist guess_type c item include_children = Err (KeyError k))
     /\ (exists k,
           _build_album guess_type c item include_children = Err (KeyError k))
     /\ (exists k,
           _build_series guess_type c item include_children = Err (KeyError k))
     /\ (exists k,
           _build_season guess_type c item include_children = Err (KeyError k)))
  /\ (forall kind,
        _get_children c parent (container_item_type kind) = Ok items ->
        exists k, build_containers guess_type kind c parent = Err (KeyError k))
  /\ (forall kind,
        _get_children c parent (leaf_item_type kind) = Ok items ->
        is_Some (_media_mime_type guess_type item) ->
        exists k, build_leaves guess_type kind c parent = Err (KeyError k))
  /\ (forall kind,
        _get_children c parent (leaf_item_type kind) = Ok items ->
        _media_mime_type guess_type item = None ->
        ~ In item (List.filter (playable guess_type) (leaf_sorted kind items))
        /\ (Forall (fun other =>
                      playable guess_type other = true -> buildable other)
               items ->
            exists nodes,
              build_leaves guess_type kind c parent = Ok nodes
              /\ Forall2 (leaf_node guess_type (leaf_class kind))
                   (List.filter (playable guess_type) (leaf_sorted kind items))
                   nodes))
  /\ (forall self request parent_item item_type,
        client self = Ok (Some c) ->
        item_identifier request <> "" ->
        get_item c (item_identifier request) = Ok parent_item ->
        Type_ parent_item = Some item_type ->
        Id parent_item = Some parent ->
        NoDup [ITEM_TYPE_LIBRARY; ITEM_TYPE_ARTIST; ITEM_TYPE_ALBUM;
               ITEM_TYPE_SERIES; ITEM_TYPE_SEASON] ->
        (item_type = ITEM_TYPE_ARTIST ->
         _get_children c parent ITEM_TYPE_ALBUM = Ok items ->
         exists k, async_browse_media guess_type self request = Err (KeyError k))
        /\ (item_type = ITEM_TYPE_SERIES ->
            _get_children c parent ITEM_TYPE_SEASON = Ok items ->
            exists k,
              async_browse_media guess_type self request = Err (KeyError k))
        /\ (item_type = ITEM_TYPE_ALBUM ->
            _get_children c parent ITEM_TYPE_AUDIO = Ok items ->
            is_Some (_media_mime_type guess_type item) ->
            exists k,
              async_browse_media guess_type self request = Err (KeyError k))
        /\ (item_type = ITEM_TYPE_SEASON ->
            _get_children c parent ITEM_TYPE_EPISODE = Ok items ->
            is_Some (_media_mime_type guess_type item) ->
            exists k,
              async_browse_media guess_type self request = Err (KeyError k))
        /\ (item_type = ITEM_TYPE_LIBRARY ->
            forall collection_type,
              CollectionType parent_item = Some collection_type ->
              (collection_type = COLLECTION_TYPE_MUSIC ->
               _get_children c parent ITEM_TYPE_ARTIST = Ok items
               \/ (_get_children c parent ITEM_TYPE_ARTIST = Ok []
                   /\ _get_children c parent ITEM_TYPE_ALBUM = Ok items) ->
               exists k,
                 async_browse_media guess_type self request = Err (KeyError k))
              /\ (collection_type <> COLLECTION_TYPE_MUSIC ->
                  collection_type = COLLECTION_TYPE_MOVIES ->
                  _get_children c parent ITEM_TYPE_MOVIE = Ok items ->
                  is_Some (_media_mime_type guess_type item) ->
                  exists k,
                    async_browse_media guess_type self request
                    = Err (KeyError k))
              /\ (collection_type <> COLLECTION_TYPE_MUSIC ->
                  collection_type <> COLLECTION_TYPE_MOVIES ->
                  _get_children c parent ITEM_TYPE_SERIES = Ok items ->
                  exists k,
                    async_browse_media guess_type self request
                    = Err (KeyError k)))).
Proof.
  intros Hin Hname. split; [|split; [|split; [|split]]].
  - intros b.
    destruct (constructors_unnamed guess_type c item b Hname)
      as (?&?&?&?&?&?&?&_).
    repeat split; assumption.
  - intros kind. by apply containers_unnamed with item.
  - intros kind. by apply leaves_unnamed.
  - intros kind Hitems Hnone. split.
    + intros [_ Hp]%filter_In.
      apply playable_spec in Hp as [m Hm]. congruence.
    + by apply leaves_built.
  - intros self request parent_item item_type Hc Hident Hget Htype Hid Hnd.
    destruct (browse_known_type guess_type self c request parent_item
                item_type Hc Hident Hget Htype Hnd)
      as (Hlib & Hart & Halb & Hser & Hsea).
    destruct (parents_unnamed guess_type c parent items item Hin Hname
                parent_item Hid)
      as (Partist & Pseries & Pmusic & Pmusic' & Ptv & Pleaf).
    split; [|split; [|split; [|split]]].
    + intros Ht Hg. rewrite (Hart Ht). auto.
    + intros Ht Hg. rewrite (Hser Ht). auto.
    + intros Ht Hg Hm. rewrite (Halb Ht). by apply Pleaf.
    + intros Ht Hg Hm. rewrite (Hsea Ht). by apply Pleaf.
    + intros Ht ct Hct. rewrite (Hlib Ht). unfold _build_library.
      rewrite Hct. simpl. split; [|split].
      * intros ->. rewrite String.eqb_refl. intros [Hg | [Hnone Hg]]; auto.
      * intros Hmu ->. rewrite (eqb_false_of_neq _ _ Hmu), String.eqb_refl.
        intros Hg Hm. by apply Pleaf.
      * intros Hmu Hmo. rewrite !eqb_false_of_neq by done. auto.
Qed.

Lemma C10_unnamed_item_witness :
  _build_albums (H := sample_const) sample_guess_type sample_client "artist1"
  = Err (KeyError ITEM_KEY_NAME)
  /\ async_browse_media (H := sample_const) sample_guess_type sample_source
       (mkMediaSourceItem "artist1")
     = Err (KeyError ITEM_KEY_NAME)
  /\ (exists nodes,
        _build_tracks (H := sample_const) sample_guess_type sample_client
          "album1" = Ok nodes
        /\ Forall2 (leaf_node sample_guess_type TRACK) [track_1] nodes).
Proof.
  destruct (C10_unnamed_item (H := sample_const) sample_guess_type sample_client
              "artist1" [album_B; album_unnamed; album_A] album_unnamed)
    as (_ & Hlist & _ & _ & Hbrowse);
    [right; left; reflexivity | reflexivity |].
  split; [| split].
  3: {
    destruct (C10_unnamed_item (H := sample_const) sample_guess_type
                sample_client "album1" [track_bare; track_1] track_bare)
      as (_ & _ & _ & Hdropped & _); [left; reflexivity | reflexivity |].
    destruct (Hdropped Tracks eq_refl eq_refl) as [_ Hbuilt].
    apply Hbuilt.
    apply List.Forall_cons; [intros E; vm_compute in E; discriminate E |].
    apply List.Forall_cons; [| apply List.Forall_nil].
    intros _. repeat split; by eexists. }
  - destruct (Hlist Albums eq_refl) as [k Hk].
    pose proof Hk as Hk'. vm_compute in Hk'. injection Hk' as <-. exact Hk.
  - destruct (Hbrowse sample_source (mkMediaSourceItem "artist1") artist_1
                "MusicArtist") as (Hartist & _);
      [reflexivity | discriminate | reflexivity | reflexivity | reflexivity | |].
    + rewrite !NoDup_cons, !not_elem_of_cons.
      repeat split; try (intros E; vm_compute in E; discriminate E);
        try apply not_elem_of_nil.
      apply NoDup_nil_2.
    + destruct (Hartist eq_refl eq_refl) as [k Hk].
      pose proof Hk as Hk'. vm_compute in Hk'. injection Hk' as <-. exact Hk.
Defined.

(** * Further properties *)

(** ** Sorting and the order of the response *)

Lemma filter_Permutation_list {A} (f : A -> bool) l1 l2 :
  Permutation l1 l2 -> Permutation (List.filter f l1) (List.filter f l2).
Proof.
  induction 1 as [|x l1 l2 _ IH|x y l|l1 l2 l3 _ IH1 _ IH2]; simpl.
  - constructor.
  - destruct (f x); [by constructor | assumption].
  - destruct (f x), (f y); try reflexivity. apply perm_swap.
  - by transitivity (List.filter f l2).
Qed.

Lemma NoDup_map_finer {A B C} (f : A -> B) (g : A -> C) l :
  (forall a b, g a = g b -> f a = f b) ->
  NoDup (map f l) -> NoDup (map g l).
Proof.
  intros Hfg. induction l as [|x l IH]; simpl; [constructor |].
  rewrite !NoDup_cons. intros [Hx Hl]. split; [|auto].
  intros Hin. apply Hx. apply list_elem_of_In, in_map_iff in Hin as (y & Hy & Hin).
  apply list_elem_of_In, in_map_iff. exists y. split; [|assumption]. by apply Hfg.
Qed.

Lemma StronglySorted_filter {A} (R : A -> A -> Prop) (f : A -> bool) l :
  StronglySorted R l -> StronglySorted R (List.filter f l).
Proof.
  induction 1 as [|x l _ IH Hx]; simpl; [constructor |].
  destruct (f x); [|assumption]. constructor; [assumption |].
  apply Forall_forall. intros y Hy.
  apply list_elem_of_In, filter_In in Hy as [Hy _].
  rewrite Forall_forall in Hx. by apply Hx, list_elem_of_In.
Qed.

Lemma StronglySorted_Forall2 {A B} (R : A -> A -> Prop) (R' : B -> B -> Prop)
    (Q : A -> B -> Prop) l l' :
  (forall a b a' b', R a b -> Q a a' -> Q b b' -> R' a' b') ->
  StronglySorted R l -> Forall2 Q l l' -> StronglySorted R' l'.
Proof.
  intros HR Hs Hq. revert Hs.
  induction Hq as [|a a' l l' Ha Hq IH]; intros Hs; [constructor |].
  apply StronglySorted_inv in Hs as [Hs Hall].
  constructor; [auto |].
  clear IH Hs. induction Hq as [|b b' l l' Hb _ IH]; [constructor |].
  apply Forall_cons in Hall as [Hab Hall]. constructor; eauto.
Qed.

Section SortedOrder.
Context {A K : Type} `{EqDecision K}.
Variable lt : K -> K -> bool.
Variable key_of : A -> K.

Hypothesis lt_irrefl : forall a, lt (key_of a) (key_of a) = false.
Hypothesis lt_trans : forall a b c,
  lt (key_of a) (key_of b) = true -> lt (key_of b) (key_of c) = true ->
  lt (key_of a) (key_of c) = true.
Hypothesis lt_total : forall a b,
  lt (key_of a) (key_of b) = false -> lt (key_of b) (key_of a) = false ->
  key_of a = key_of b.

(** With pairwise distinct keys, at most one element has a given key. *)
Lemma filter_has_key_NoDup k l :
  NoDup (map key_of l) ->
  (length (List.filter (has_key key_of k) l) <= 1)%nat.
Proof using Type.
  induction l as [|x l IH]; simpl; [lia |].
  rewrite NoDup_cons. intros [Hx Hl].
  unfold has_key at 1. case_bool_decide as Hk; simpl; [|auto].
  destruct (List.filter (has_key key_of k) l) as [|y rest] eqn:Hf;
    [simpl; lia |].
  exfalso. apply Hx.
  assert (Hy : In y (List.filter (has_key key_of k) l)) by (rewrite Hf; by left).
  apply filter_In in Hy as [Hin Hy].
  unfold has_key in Hy. apply bool_decide_eq_true in Hy.
  rewrite Hk, <- Hy. by apply list_elem_of_In, in_map.
Qed.

(** With pairwise distinct keys the sorted list does not depend on the
    order of the input. *)
Lemma sorted_order_independent l1 l2 :
  Permutation l1 l2 -> NoDup (map key_of l1) ->
  sorted lt key_of l1 = sorted lt key_of l2.
Proof using All.
  intros Hp Hnd.
  apply (stable_sort_unique lt key_of lt_irrefl lt_trans lt_total).
  - by apply sorted_StronglySorted.
  - intros k. rewrite (sorted_stable lt key_of lt_irrefl).
    pose proof (filter_has_key_NoDup k l1 Hnd) as Hlen.
    pose proof (filter_Permutation_list (has_key key_of k) l1 l2 Hp) as Hpf.
    destruct (List.filter (has_key key_of k) l1) as [|x [|y rest]];
      simpl in Hlen; [| |lia].
    + symmetry. by apply Permutation_nil.
    + symmetry. by apply Permutation_length_1_inv.
Qed.
End SortedOrder.

Lemma sorted_by_name_StronglySorted items :
  StronglySorted (key_le (tuple_lt String.ltb) name_key) (sorted_by_name items).
Proof.
  apply sorted_StronglySorted.
  - apply (field_lt_irrefl String.ltb Name); [done | exact string_ltb_irrefl].
  - apply (field_lt_trans String.ltb Name); [done | exact string_ltb_trans].
  - apply (field_lt_total String.ltb Name); [done | exact string_ltb_total].
Qed.

(** X1. Where the names (the index numbers) of the fetched items are
    pairwise distinct, the sorted list is the same for every order in
    which the server returns them. *)
Theorem sorted_response_order (l1 l2 : list Item) :
  Permutation l1 l2 ->
  (NoDup (map Name l1) -> sorted_by_name l1 = sorted_by_name l2)
  /\ (NoDup (map IndexNumber l1) -> sorted_by_index l1 = sorted_by_index l2).
Proof.
  intros Hp. split; intros Hnd.
  - apply sorted_order_independent; try assumption.
    + apply (field_lt_irrefl String.ltb Name); [done | exact string_ltb_irrefl].
    + apply (field_lt_trans String.ltb Name); [done | exact string_ltb_trans].
    + apply (field_lt_total String.ltb Name); [done | exact string_ltb_total].
    + eapply NoDup_map_finer; [|exact Hnd]. by intros a b [= _ ?].
  - apply sorted_order_independent; try assumption.
    + apply (field_lt_irrefl Z.ltb IndexNumber); [done | exact Z.ltb_irrefl].
    + apply (field_lt_trans Z.ltb IndexNumber); [done | exact Z_ltb_trans].
    + apply (field_lt_total Z.ltb IndexNumber); [done | exact Z_ltb_total].
    + eapply NoDup_map_finer; [|exact Hnd]. by intros a b [= _ ?].
Qed.

Lemma sorted_response_order_witness :
  sorted_by_name [album_B; album_unnamed; album_A]
  = sorted_by_name [album_A; album_B; album_unnamed].
Proof.
  apply (sorted_response_order [album_B; album_unnamed; album_A]
           [album_A; album_B; album_unnamed]).
  - apply Permutation_sym, (Permutation_cons_app [album_B; album_unnamed] []).
    reflexivity.
  - simpl. rewrite !NoDup_cons, !not_elem_of_cons.
    repeat split; try discriminate; try apply not_elem_of_nil.
    apply NoDup_nil_2.
Defined.

(** X2. The children of a music library, an artist, a show library and a
    movie library are listed with their titles in ascending order. *)
Theorem titles_sorted `{Const} (guess_type : string -> option string)
    (c : JellyfinClient) (parent : string) (nodes : list BrowseMediaSource) :
  _build_artists guess_type c parent = Ok nodes
  \/ _build_albums guess_type c parent = Ok nodes
  \/ _build_tvshow guess_type c parent = Ok nodes
  \/ _build_movies guess_type c parent = Ok nodes ->
  titles_ascending nodes.
Proof.
  assert (Hle : forall (a b : Item) (a' b' : BrowseMediaSource),
            key_le (tuple_lt String.ltb) name_key a b ->
            Some (title a') = Name a -> Some (title b') = Name b ->
            String.ltb (title b') (title a') = false).
  { intros a b a' b' Hab Ha Hb. unfold key_le, name_key in Hab.
    by rewrite <- Ha, <- Hb in Hab. }
  unfold _build_artists, _build_albums, _build_tvshow, _build_movies.
  intros [Hb|[Hb|[Hb|Hb]]];
    apply bind_Ok_inv in Hb as (items & _ & Ht);
    apply traverse_Ok_Forall2 in Ht.
  - eapply (StronglySorted_Forall2 _ _
              (fun item n => Some (title n) = Name item)
              (sorted_by_name items));
      [exact Hle | apply sorted_by_name_StronglySorted |].
    eapply Forall2_impl; [exact Ht |]. intros item n Hn.
    by apply _build_artist_Ok in Hn as (_ & ? & _).
  - eapply (StronglySorted_Forall2 _ _
              (fun item n => Some (title n) = Name item)
              (sorted_by_name items));
      [exact Hle | apply sorted_by_name_StronglySorted |].
    eapply Forall2_impl; [exact Ht |]. intros item n Hn.
    by apply _build_album_Ok in Hn as (_ & ? & _).
  - eapply (StronglySorted_Forall2 _ _
              (fun item n => Some (title n) = Name item)
              (sorted_by_name items));
      [exact Hle | apply sorted_by_name_StronglySorted |].
    eapply Forall2_impl; [exact Ht |]. intros item n Hn.
    by apply _build_series_Ok in Hn as (_ & ? & _).
  - eapply (StronglySorted_Forall2 _ _
              (fun item n => Some (title n) = Name item));
      [exact Hle
      |apply StronglySorted_filter, sorted_by_name_StronglySorted |].
    eapply Forall2_impl; [exact Ht |]. intros item n Hn.
    by apply _build_movie_Ok in Hn as (_ & ? & _).
Qed.

Lemma titles_sorted_witness :
  exists nodes,
    _build_albums (H := sample_const) sample_guess_type sample_client "lib1"
    = Ok nodes
    /\ map title nodes = ["A"; "B"]
    /\ titles_ascending nodes.
Proof.
  eexists. split; [vm_compute; reflexivity |]. split; [reflexivity |].
  apply (titles_sorted (H := sample_const) sample_guess_type sample_client "lib1").
  right. left. vm_compute. reflexivity.
Defined.

(** X3. A container list has one node for each fetched item; a leaf list
    has one node for each fetched item with a derivable MIME type, and so
    at most as many nodes as fetched items. *)
Theorem children_count `{Const} (guess_type : string -> option string)
    (c : JellyfinClient) (parent : string) (items : list Item)
    (nodes : list BrowseMediaSource) :
  (forall kind,
     _get_children c parent (container_item_type kind) = Ok items ->
     build_containers guess_type kind c parent = Ok nodes ->
     length nodes = length items)
  /\ (forall kind,
        _get_children c parent (leaf_item_type kind) = Ok items ->
        build_leaves guess_type kind c parent = Ok nodes ->
        length nodes = length (List.filter (playable guess_type) items)
        /\ (length nodes <= length items)%nat).
Proof.
  split; intros kind Hg Hb.
  - rewrite build_containers_unfold, Hg in Hb. simpl in Hb.
    apply traverse_Ok_Forall2, Forall2_length in Hb. rewrite <- Hb.
    apply Permutation_length.
    destruct kind;
      first [apply (sorted_Permutation (tuple_lt String.ltb) name_key)
            |apply (sorted_Permutation (tuple_lt Z.ltb) index_key)].
  - rewrite build_leaves_unfold, Hg in Hb. simpl in Hb.
    apply traverse_Ok_Forall2, Forall2_length in Hb. rewrite <- Hb.
    assert (Hlen : length (List.filter (playable guess_type)
                             (leaf_sorted kind items))
                   = length (List.filter (playable guess_type) items)).
    { apply Permutation_length, filter_Permutation_list,
        leaf_sorted_Permutation. }
    rewrite Hlen. split; [reflexivity | apply List.filter_length_le].
Qed.

Lemma children_count_witness :
  exists nodes,
    _build_tracks (H := sample_const) sample_guess_type sample_client "album1"
    = Ok nodes
    /\ length nodes = 1%nat
    /\ (length nodes <= length [track_bare; track_1])%nat.
Proof.
  eexists. split; [vm_compute; reflexivity |].
  destruct (children_count (H := sample_const) sample_guess_type sample_client
              "album1" [track_bare; track_1]
              [mkBrowse "jellyfin" (Some "track1") TRACK (Some "audio/mpeg")
                 "Song" true false None None None]) as [_ Hleaf].
  destruct (Hleaf Tracks) as [Hlen Hle];
    [reflexivity | vm_compute; reflexivity |].
  split; [reflexivity | exact Hle].
Defined.

(** ** The client and the fetched item *)

Lemma client_Err `{Const} self e :
  client self = Err e -> e = KeyError (KEY_ENTRY (entry_id self)).
Proof.
  unfold client. destruct (hass_data self !! DOMAIN) as [data|]; [|discriminate].
  destruct (decide _); [discriminate |].
  destruct (data !! entry_id self); simpl; congruence.
Qed.

(** X4. Without data for the integration, or with empty data, [browse]
    raises its [BrowseError] and [resolve] its [Unresolvable]; with data
    that has no record for the config entry both raise the [KeyError] of
    the failed subscription; with a record, the client is the record's. *)
Theorem entry_points_client `{Const} (guess_type : string -> option string)
    (self : JellyfinSource) (item : MediaSourceItem) :
  (hass_data self !! DOMAIN = None
   \/ (exists data, hass_data self !! DOMAIN = Some data /\ size data = 0%nat) ->
   async_browse_media guess_type self item
   = Err (BrowseError "Jellyfin not initialized")
   /\ async_resolve_media guess_type self item
      = Err (Unresolvable "Jellyfin not initialized"))
  /\ (forall data,
        hass_data self !! DOMAIN = Some data ->
        size data <> 0%nat ->
        (data !! entry_id self = None ->
         async_browse_media guess_type self item
         = Err (KeyError (KEY_ENTRY (entry_id self)))
         /\ async_resolve_media guess_type self item
            = Err (KeyError (KEY_ENTRY (entry_id self))))
        /\ (forall record,
              data !! entry_id self = Some record ->
              client self = Ok (Some (jellyfin_client record)))).
Proof.
  split.
  - intros Hnone. apply client_None in Hnone.
    unfold async_browse_media, async_resolve_media. by rewrite Hnone.
  - intros data Hdata Hsize.
    assert (Hclient : client self
                      = (record <-- getitem (KEY_ENTRY (entry_id self))
                                      (data !! entry_id self) ;;
                         Ok (Some (jellyfin_client record)))).
    { unfold client. rewrite Hdata. by destruct (decide _). }
    split.
    + intros Hrec. unfold async_browse_media, async_resolve_media.
      by rewrite Hclient, Hrec.
    + intros record Hrec. by rewrite Hclient, Hrec.
Qed.

Lemma entry_points_client_witness :
  async_resolve_media (H := sample_const) sample_guess_type uninitialized_source
    (mkMediaSourceItem "track1")
  = Err (Unresolvable "Jellyfin not initialized")
  /\ async_browse_media (H := sample_const) sample_guess_type stale_source
       (mkMediaSourceItem "")
     = Err (KeyError (KEY_ENTRY "entry1"))
  /\ client (H := sample_const) sample_source = Ok (Some sample_client).
Proof.
  split; [|split].
  - apply (entry_points_client (H := sample_const) sample_guess_type
             uninitialized_source (mkMediaSourceItem "track1")).
    left. reflexivity.
  - destruct (entry_points_client (H := sample_const) sample_guess_type
                stale_source (mkMediaSourceItem "")) as [_ Hdata].
    destruct (Hdata {[ "entry0" := mkJellyfinData sample_client ]})
      as [Hmissing _]; [reflexivity | vm_compute; discriminate |].
    by apply Hmissing.
  - destruct (entry_points_client (H := sample_const) sample_guess_type
                sample_source (mkMediaSourceItem "")) as [_ Hdata].
    destruct (Hdata {[ "entry1" := mkJellyfinData sample_client ]})
      as [_ Hrecord]; [reflexivity | vm_compute; discriminate |].
    by apply (Hrecord (mkJellyfinData sample_client)).
Defined.

(** X5. What the client raises when the item is fetched reaches the
    caller of [resolve] and of [browse] unchanged; a fetched item without
    a type makes [browse] raise [KeyError]. *)
Theorem fetch_failure `{Const} (guess_type : string -> option string)
    (self : JellyfinSource) (c : JellyfinClient) (item : MediaSourceItem) :
  client self = Ok (Some c) ->
  (forall e,
     get_item c (item_identifier item) = Err e ->
     async_resolve_media guess_type self item = Err e
     /\ (item_identifier item <> "" ->
         async_browse_media guess_type self item = Err e))
  /\ (forall media_item,
        get_item c (item_identifier item) = Ok media_item ->
        Type_ media_item = None ->
        item_identifier item <> "" ->
        async_browse_media guess_type self item = Err (KeyError KEY_TYPE)).
Proof.
  intros Hc. unfold async_resolve_media, async_browse_media. rewrite Hc. simpl.
  split.
  - intros e He. rewrite He. split; [reflexivity |].
    intros Hid. by rewrite (eqb_false_of_neq _ _ Hid).
  - intros media_item Hget Htype Hid.
    rewrite (eqb_false_of_neq _ _ Hid), Hget. simpl. by rewrite Htype.
Qed.

Lemma fetch_failure_witness :
  async_resolve_media (H := sample_const) sample_guess_type sample_source
    (mkMediaSourceItem "gone")
  = Err (ClientError "item not found")
  /\ async_browse_media (H := sample_const) sample_guess_type sample_source
       (mkMediaSourceItem "gone")
     = Err (ClientError "item not found")
  /\ async_browse_media (H := sample_const) sample_guess_type large_source
       (mkMediaSourceItem "odd1")
     = Err (KeyError KEY_TYPE).
Proof.
  destruct (fetch_failure (H := sample_const) sample_guess_type sample_source
              sample_client (mkMediaSourceItem "gone") eq_refl) as [Herr _].
  destruct (Herr (ClientError "item not found") eq_refl) as [Hres Hbrowse].
  split; [exact Hres |]. split; [by apply Hbrowse |].
  destruct (fetch_failure (H := sample_const) sample_guess_type large_source
              large_client (mkMediaSourceItem "odd1") eq_refl) as [_ Htype].
  by apply (Htype typeless_item).
Defined.

(** X6. Every failure of [resolve] is one of: [Unresolvable] for want of
    a client; a [KeyError] of a subscription; what the client raised when
    the item was fetched; the [BrowseError] of a media type that is
    neither audio nor video; the assertion, only for an item whose stream
    URL resolved and whose MIME type is not derivable.  A failure of the
    stream resolver is the failure of [resolve], whatever the MIME
    resolver would give. *)
Theorem resolve_failures `{Const} (guess_type : string -> option string)
    (self : JellyfinSource) (item : MediaSourceItem) :
  (forall e,
     async_resolve_media guess_type self item = Err e ->
     (client self = Ok None /\ e = Unresolvable "Jellyfin not initialized")
     \/ (exists k, e = KeyError k)
     \/ (exists c,
           client self = Ok (Some c)
           /\ get_item c (item_identifier item) = Err e)
     \/ (exists c media_item media_type,
           client self = Ok (Some c)
           /\ get_item c (item_identifier item) = Ok media_item
           /\ MediaType media_item = Some media_type
           /\ media_type <> MEDIA_TYPE_AUDIO /\ media_type <> MEDIA_TYPE_VIDEO
           /\ e = BrowseError ("Unsupported media type " ++ media_type))
     \/ (exists c media_item stream_url,
           client self = Ok (Some c)
           /\ get_item c (item_identifier item) = Ok media_item
           /\ _get_stream_url c media_item = Ok stream_url
           /\ _media_mime_type guess_type media_item = None
           /\ e = AssertionError))
  /\ (forall c media_item e,
        client self = Ok (Some c) ->
        get_item c (item_identifier item) = Ok media_item ->
        _get_stream_url c media_item = Err e ->
        async_resolve_media guess_type self item = Err e).
Proof.
  unfold async_resolve_media. split.
  - intros e. destruct (client self) as [[c|]|e0] eqn:Hc; simpl.
    + destruct (get_item c (item_identifier item)) as [media_item|e1] eqn:Hget;
        simpl; [|intros [= <-]; right; right; left; eauto].
      destruct (_get_stream_url c media_item) as [stream_url|e2] eqn:Hurl; simpl.
      * destruct (_media_mime_type guess_type media_item) eqn:Hmime;
          [discriminate |].
        intros [= <-]. do 4 right. eauto 10.
      * intros [= <-]. unfold _get_stream_url in Hurl.
        destruct (MediaType media_item) as [mt|] eqn:Hmt; simpl in Hurl;
          [|injection Hurl as <-; eauto].
        destruct (Id media_item) as [id|]; simpl in Hurl;
          [|injection Hurl as <-; eauto].
        destruct (String.eqb_spec mt MEDIA_TYPE_AUDIO); [discriminate |].
        destruct (String.eqb_spec mt MEDIA_TYPE_VIDEO); [discriminate |].
        injection Hurl as <-. do 3 right. left. eauto 10.
    + intros [= <-]. by left.
    + intros [= <-]. apply client_Err in Hc. eauto.
  - intros c media_item e -> Hget Hurl. unfold bind at 1. unfold bind at 1.
    rewrite Hget. unfold bind at 1. by rewrite Hurl.
Qed.

Lemma resolve_failures_witness :
  (exists c media_item stream_url,
     client (H := sample_const) sample_source = Ok (Some c)
     /\ get_item c "track2" = Ok media_item
     /\ _get_stream_url (H := sample_const) c media_item = Ok stream_url
     /\ _media_mime_type sample_guess_type media_item = None)
  /\ async_resolve_media (H := sample_const) sample_guess_type sample_source
       (mkMediaSourceItem "photo1")
     = Err (BrowseError "Unsupported media type Photo").
Proof.
  destruct (resolve_failures (H := sample_const) sample_guess_type sample_source
              (mkMediaSourceItem "track2")) as [Hcases _].
  destruct (resolve_failures (H := sample_const) sample_guess_type sample_source
              (mkMediaSourceItem "photo1")) as [_ Hfirst].
  split.
  - destruct (Hcases AssertionError) as [[_ [=]]|[[k [=]]|[Hc|[Hc|Hc]]]];
      [vm_compute; reflexivity | | |].
    + destruct Hc as (c & Hcl & Hget). vm_compute in Hcl. injection Hcl as <-.
      vm_compute in Hget. discriminate Hget.
    + destruct Hc as (c & mi & mt & _ & _ & _ & _ & _ & [=]).
    + destruct Hc as (c & mi & stream_url & Hc & Hget & Hurl & Hmime & _).
      exists c, mi, stream_url. auto.
  - by apply (Hfirst sample_client photo_1).
Defined.

(** ** Thumbnails *)

Lemma _get_thumbnail_url_Ok `{Const} c media_item t :
  _get_thumbnail_url c media_item = Ok t ->
  exists tags,
    ImageTags media_item = Some tags
    /\ ((tags !! "Primary" = None /\ t = None)
        \/ (is_Some (tags !! "Primary")
            /\ exists item_id,
                 Id media_item = Some item_id
                 /\ t = Some (artwork c item_id "Primary" MAX_IMAGE_WIDTH))).
Proof.
  unfold _get_thumbnail_url.
  destruct (ImageTags media_item) as [tags|]; [|discriminate]. simpl.
  exists tags. split; [reflexivity |].
  case_bool_decide as Hp; simpl in *.
  - destruct (Id media_item) as [item_id|]; simpl in *; [|discriminate].
    right. simplify_eq. eauto.
  - left. simplify_eq. split; [|reflexivity].
    destruct (tags !! "Primary") eqn:Ht; [|reflexivity].
    exfalso. apply Hp. eauto.
Qed.

(** X7. The thumbnail of an item: [KeyError] without image tags; none
    when the tags have no primary image, even for an item without id;
    otherwise the client's artwork URL for the id, the primary image and
    the maximal width.  The node of an artist, album, track, movie,
    series, season or episode carries that thumbnail; the node of a
    library carries none, whatever its tags. *)
Theorem thumbnail_url `{Const} (guess_type : string -> option string)
    (c : JellyfinClient) (media_item : Item) :
  (ImageTags media_item = None ->
   _get_thumbnail_url c media_item = Err (KeyError ITEM_KEY_IMAGE_TAGS))
  /\ (forall tags,
        ImageTags media_item = Some tags ->
        (tags !! "Primary" = None -> _get_thumbnail_url c media_item = Ok None)
        /\ (is_Some (tags !! "Primary") ->
            (Id media_item = None ->
             _get_thumbnail_url c media_item = Err (KeyError ITEM_KEY_ID))
            /\ (forall item_id,
                  Id media_item = Some item_id ->
                  _get_thumbnail_url c media_item
                  = Ok (Some (artwork c item_id "Primary" MAX_IMAGE_WIDTH)))))
  /\ (forall n,
        _build_track guess_type c media_item = Ok n
        \/ _build_movie guess_type c media_item = Ok n
        \/ _build_episode guess_type c media_item = Ok n
        \/ _build_artist guess_type c media_item false = Ok n
        \/ _build_album guess_type c media_item false = Ok n
        \/ _build_series guess_type c media_item false = Ok n
        \/ _build_season guess_type c media_item false = Ok n ->
        exists tags item_id,
          ImageTags media_item = Some tags /\ Id media_item = Some item_id
          /\ thumbnail n = thumbnail_of c tags item_id)
  /\ (forall include_children n,
        _build_library guess_type c media_item include_children = Ok n ->
        thumbnail n = None).
Proof.
  split; [|split; [|split]].
  - unfold _get_thumbnail_url. by intros ->.
  - intros tags Htags. unfold _get_thumbnail_url. rewrite Htags. simpl. split.
    + intros Hp. rewrite bool_decide_eq_false_2; [reflexivity |].
      rewrite Hp. by intros [? ?].
    + intros Hp. rewrite bool_decide_eq_true_2 by assumption. simpl.
      split; [by intros -> | by intros item_id ->].
  - unfold _build_track, _build_movie, _build_episode, _build_artist,
      _build_album, _build_series, _build_season.
    intros n Hor.
    assert (Hn : exists item_id t,
               Id media_item = Some item_id
               /\ _get_thumbnail_url c media_item = Ok t /\ thumbnail n = t).
    { destruct (Id media_item) as [item_id|];
        [|decompose [or] Hor; discriminate].
      destruct (Name media_item) as [nm|];
        [|decompose [or] Hor; discriminate].
      destruct (_get_thumbnail_url c media_item) as [t|e];
        [|decompose [or] Hor; discriminate].
      exists item_id, t. repeat split.
      decompose [or] Hor; simpl in *; by simplify_eq. }
    destruct Hn as (item_id & t & Hid & Ht & ->).
    apply _get_thumbnail_url_Ok in Ht as (tags & Htags & Hcases).
    exists tags, item_id. repeat split; try assumption. unfold thumbnail_of.
    destruct Hcases as [[Hp ->]|(Hp & item_id' & Hid' & ->)].
    + rewrite bool_decide_eq_false_2; [reflexivity |].
      rewrite Hp. by intros [? ?].
    + rewrite bool_decide_eq_true_2 by assumption. congruence.
  - intros b n. unfold _build_library, _build_music_library,
      _build_movie_library, _build_tv_library.
    intros Hn. run_monad.
Qed.

Lemma thumbnail_url_witness :
  _get_thumbnail_url (H := sample_const) sample_client untagged_item
  = Err (KeyError ITEM_KEY_IMAGE_TAGS)
  /\ _get_thumbnail_url (H := sample_const) sample_client anonymous_item = Ok None
  /\ _get_thumbnail_url (H := sample_const) sample_client episode_1
     = Ok (Some "/Items/episode1/Images/Primary").
Proof.
  split; [|split].
  - by apply (thumbnail_url (H := sample_const) sample_guess_type sample_client
                untagged_item).
  - destruct (thumbnail_url (H := sample_const) sample_guess_type sample_client
                anonymous_item) as (_ & Htags & _).
    by apply (Htags ∅).
  - destruct (thumbnail_url (H := sample_const) sample_guess_type sample_client
                episode_1) as (_ & Htags & _).
    destruct (Htags {[ "Primary" := "tag1" ]} eq_refl) as [_ Hprimary].
    destruct Hprimary as [_ Hid]; [by exists "tag1" |].
    by apply (Hid "episode1").
Defined.

(** ** Nodes without their children *)

(** X8. Building a node without its children asks the server nothing:
    two clients with the same artwork URLs build the same node, or raise
    the same exception, whatever their catalogues hold. *)
Theorem childless_nodes_query_nothing `{Const}
    (guess_type : string -> option string) (c1 c2 : JellyfinClient)
    (item : Item) :
  (forall item_id kind width,
     artwork c1 item_id kind width = artwork c2 item_id kind width) ->
  _build_track guess_type c1 item = _build_track guess_type c2 item
  /\ _build_movie guess_type c1 item = _build_movie guess_type c2 item
  /\ _build_episode guess_type c1 item = _build_episode guess_type c2 item
  /\ _build_artist guess_type c1 item false = _build_artist guess_type c2 item false
  /\ _build_album guess_type c1 item false = _build_album guess_type c2 item false
  /\ _build_series guess_type c1 item false
     = _build_series guess_type c2 item false
  /\ _build_season guess_type c1 item false
     = _build_season guess_type c2 item false
  /\ _build_library guess_type c1 item false
     = _build_library guess_type c2 item false.
Proof.
  intros Hart.
  assert (Ht : _get_thumbnail_url c1 item = _get_thumbnail_url c2 item).
  { unfold _get_thumbnail_url. destruct (ImageTags item); simpl; [|reflexivity].
    destruct (negb _); [reflexivity |].
    destruct (Id item); simpl; [|reflexivity]. by rewrite Hart. }
  unfold _build_track, _build_movie, _build_episode, _build_artist,
    _build_album, _build_series, _build_season, _build_library,
    _build_music_library, _build_movie_library, _build_tv_library.
  rewrite Ht. repeat split.
Qed.

Lemma childless_nodes_query_nothing_witness :
  _build_album (H := sample_const) sample_guess_type failing_client album_1 false
  = _build_album (H := sample_const) sample_guess_type sample_client album_1 false
  /\ _build_library (H := sample_const) sample_guess_type failing_client
       music_library false
     = _build_library (H := sample_const) sample_guess_type sample_client
         music_library false.
Proof.
  destruct (childless_nodes_query_nothing (H := sample_const) sample_guess_type
              failing_client sample_client album_1) as (_&_&_&_&Halbum&_);
    [reflexivity |].
  destruct (childless_nodes_query_nothing (H := sample_const) sample_guess_type
              failing_client sample_client music_library) as (_&_&_&_&_&_&_&Hlib);
    [reflexivity |].
  by split.
Defined.

(** X9. Building a node with its children is building it without them,
    then building the list of its children for its id, then attaching
    the list: the node's own keys are read, and may raise, before any
    child is fetched.  The music library attaches its albums when the
    list of its artists is empty. *)
Theorem with_children `{Const} (guess_type : string -> option string)
    (c : JellyfinClient) (item : Item) (item_id : string) :
  Id item = Some item_id ->
  _build_artist guess_type c item true
  = (n <-- _build_artist guess_type c item false ;;
     nodes <-- _build_albums guess_type c item_id ;;
     Ok (set_children ALBUM nodes n))
  /\ _build_album guess_type c item true
     = (n <-- _build_album guess_type c item false ;;
        nodes <-- _build_tracks guess_type c item_id ;;
        Ok (set_children TRACK nodes n))
  /\ _build_series guess_type c item true
     = (n <-- _build_series guess_type c item false ;;
        nodes <-- _build_seasons guess_type c item_id ;;
        Ok (set_children SEASON nodes n))
  /\ _build_season guess_type c item true
     = (n <-- _build_season guess_type c item false ;;
        nodes <-- _build_episodes guess_type c item_id ;;
        Ok (set_children EPISODE nodes n))
  /\ _build_movie_library guess_type c item true
     = (n <-- _build_movie_library guess_type c item false ;;
        nodes <-- _build_movies guess_type c item_id ;;
        Ok (set_children MOVIE nodes n))
  /\ _build_tv_library guess_type c item true
     = (n <-- _build_tv_library guess_type c item false ;;
        nodes <-- _build_tvshow guess_type c item_id ;;
        Ok (set_children TV_SHOW nodes n))
  /\ _build_music_library guess_type c item true
     = (n <-- _build_music_library guess_type c item false ;;
        artists <-- _build_artists guess_type c item_id ;;
        match artists with
        | [] =>
            albums <-- _build_albums guess_type c item_id ;;
            Ok (set_children ALBUM albums n)
        | _ :: _ => Ok (set_children ARTIST artists n)
        end).
Proof.
  intros Hid.
  unfold _build_artist, _build_album, _build_series, _build_season,
    _build_movie_library, _build_tv_library, _build_music_library.
  rewrite Hid. simpl.
  destruct (Name item); simpl; [|repeat split].
  destruct (_get_thumbnail_url c item); simpl; repeat split.
Qed.

Lemma with_children_witness :
  _build_album (H := sample_const) sample_guess_type sample_client album_1 true
  = (n <-- _build_album (H := sample_const) sample_guess_type sample_client
             album_1 false ;;
     nodes <-- _build_tracks (H := sample_const) sample_guess_type sample_client
                 "album1" ;;
     Ok (set_children TRACK nodes n)).
Proof.
  by apply (with_children (H := sample_const) sample_guess_type sample_client
              album_1 "album1" eq_refl).
Defined.

(** ** Failures of the listing calls *)

(** X10. What the client raises when children or folders are listed is
    what the list builder, and the root browse, raise; a response without
    [Items] makes them raise [KeyError]. *)
Theorem listing_failure `{Const} (guess_type : string -> option string)
    (c : JellyfinClient) (parent : string) :
  (forall type e,
     user_items c ""
       (mkParams "true" parent type
          (if bool_decide (type ∈ PLAYABLE_ITEM_TYPES)
           then Some ITEM_KEY_MEDIA_SOURCES else None)) = Err e ->
     _get_children c parent type = Err e)
  /\ (forall type,
        user_items c ""
          (mkParams "true" parent type
             (if bool_decide (type ∈ PLAYABLE_ITEM_TYPES)
              then Some ITEM_KEY_MEDIA_SOURCES else None))
        = Ok (mkResponse None) ->
        _get_children c parent type = Err (KeyError KEY_ITEMS))
  /\ (forall kind e,
        _get_children c parent (container_item_type kind) = Err e ->
        build_containers guess_type kind c parent = Err e)
  /\ (forall kind e,
        _get_children c parent (leaf_item_type kind) = Err e ->
        build_leaves guess_type kind c parent = Err e)
  /\ (forall self item,
        client self = Ok (Some c) ->
        item_identifier item = "" ->
        (forall e,
           get_media_folders c = Err e ->
           async_browse_media guess_type self item = Err e)
        /\ (get_media_folders c = Ok (mkResponse None) ->
            async_browse_media guess_type self item = Err (KeyError KEY_ITEMS))).
Proof.
  split; [|split; [|split; [|split]]].
  - intros type e He. unfold _get_children. by rewrite He.
  - intros type He. unfold _get_children. by rewrite He.
  - intros kind e He. rewrite build_containers_unfold. by rewrite He.
  - intros kind e He. rewrite build_leaves_unfold. by rewrite He.
  - intros self item Hc Hid. unfold async_browse_media. rewrite Hc, Hid. simpl.
    unfold _build_libraries, _get_libraries.
    split; [intros e He | intros He]; by rewrite He.
Qed.

Lemma listing_failure_witness :
  _build_albums (H := sample_const) sample_guess_type failing_client "artist1"
  = Err (ClientError "connection refused")
  /\ _build_tracks (H := sample_const) sample_guess_type failing_client "album1"
     = Err (ClientError "connection refused")
  /\ async_browse_media (H := sample_const) sample_guess_type failing_source
       (mkMediaSourceItem "")
     = Err (ClientError "connection refused").
Proof.
  destruct (listing_failure (H := sample_const) sample_guess_type failing_client
              "artist1") as (_ & _ & Hcont & _).
  destruct (listing_failure (H := sample_const) sample_guess_type failing_client
              "album1") as (_ & _ & _ & Hleaf & Hroot).
  split; [|split].
  - by apply (Hcont Albums).
  - by apply (Hleaf Tracks).
  - destruct (Hroot failing_source (mkMediaSourceItem "") eq_refl eq_refl)
      as [Herr _].
    by apply Herr.
Defined.

(** ** Libraries browsed directly *)

(** X11. A library is built as a music library when its collection type
    is music, as a movie library when it is movies, and as a show library
    for every other collection type, in the supported list or not; a
    library item without collection type raises [KeyError].  So browsing
    a library that the root leaves out lists its series. *)
Theorem library_dispatch `{Const} (guess_type : string -> option string)
    (c : JellyfinClient) (library : Item) (include_children : bool) :
  (CollectionType library = None ->
   _build_library guess_type c library include_children
   = Err (KeyError ITEM_KEY_COLLECTION_TYPE))
  /\ (forall collection_type,
        CollectionType library = Some collection_type ->
        (collection_type = COLLECTION_TYPE_MUSIC ->
         _build_library guess_type c library include_children
         = _build_music_library guess_type c library include_children)
        /\ (collection_type <> COLLECTION_TYPE_MUSIC ->
            collection_type = COLLECTION_TYPE_MOVIES ->
            _build_library guess_type c library include_children
            = _build_movie_library guess_type c library include_children)
        /\ (collection_type <> COLLECTION_TYPE_MUSIC ->
            collection_type <> COLLECTION_TYPE_MOVIES ->
            _build_library guess_type c library include_children
            = _build_tv_library guess_type c library include_children
            /\ forall self item,
                 client self = Ok (Some c) ->
                 item_identifier item <> "" ->
                 get_item c (item_identifier item) = Ok library ->
                 Type_ library = Some ITEM_TYPE_LIBRARY ->
                 async_browse_media guess_type self item
                 = _build_tv_library guess_type c library true)).
Proof.
  unfold _build_library. split; [by intros -> |].
  intros ct Hct. rewrite Hct. simpl. split; [|split].
  - intros ->. by rewrite String.eqb_refl.
  - intros Hmu ->. by rewrite (eqb_false_of_neq _ _ Hmu), String.eqb_refl.
  - intros Hmu Hmo. split; [by rewrite !eqb_false_of_neq |].
    intros self item Hc Hid Hget Htype.
    rewrite (browse_fetched guess_type self c item library ITEM_TYPE_LIBRARY)
      by assumption.
    rewrite String.eqb_refl. unfold _build_library. rewrite Hct. simpl.
    by rewrite !eqb_false_of_neq.
Qed.

Lemma library_dispatch_witness :
  _build_library (H := sample_const) sample_guess_type large_client
    mixed_library true
  = Err (KeyError ITEM_KEY_COLLECTION_TYPE)
  /\ exists node child,
       async_browse_media (H := sample_const) sample_guess_type large_source
         (mkMediaSourceItem "lib2") = Ok node
       /\ children_media_class node = Some TV_SHOW
       /\ children node = Some [child]
       /\ identifier child = Some "series1".
Proof.
  split.
  - by apply (library_dispatch (H := sample_const) sample_guess_type large_client
                mixed_library true).
  - destruct (library_dispatch (H := sample_const) sample_guess_type large_client
                photo_library true) as [_ Hct].
    destruct (Hct "photos" eq_refl) as (_ & _ & Hother).
    destruct Hother as [_ Hbrowse]; [discriminate | discriminate |].
    rewrite (Hbrowse large_source (mkMediaSourceItem "lib2"));
      [|reflexivity | discriminate | reflexivity | reflexivity].
    eexists _, _. split; [vm_compute; reflexivity |]. repeat split.
Defined.

(** ** The shape of the returned tree *)

Lemma traverse_Forall {A B} (f : A -> result B) (Q : B -> Prop) xs ys :
  (forall x y, f x = Ok y -> Q y) -> traverse f xs = Ok ys -> Forall Q ys.
Proof.
  intros Hf Ht. apply traverse_Ok_Forall2 in Ht.
  induction Ht; constructor; eauto.
Qed.

Lemma traverse_Err_inv {A B} (f : A -> result B) xs e :
  traverse f xs = Err e -> exists x, In x xs /\ f x = Err e.
Proof.
  induction xs as [|x xs IH]; simpl; [discriminate |].
  destruct (f x) as [y|e'] eqn:Hx; simpl.
  - destruct (traverse f xs) as [ys|e'']; simpl; [discriminate |].
    intros [= <-]. destruct (IH eq_refl) as (x' & Hin & Hx'). eauto.
  - intros [= <-]. eauto.
Qed.

Section TreeFacts.
Context `{Const}.
Variable guess_type : string -> option string.
Variable c : JellyfinClient.

(** Raised by a subscription or by the client. *)
#[local] Abbreviation benign e :=
  ((exists k, e = KeyError k) \/ client_raised c e).

Lemma constructors_child_ok item n :
  (_build_track guess_type c item = Ok n -> child_ok n /\ media_class n = TRACK)
  /\ (_build_movie guess_type c item = Ok n ->
      child_ok n /\ media_class n = MOVIE)
  /\ (_build_episode guess_type c item = Ok n ->
      child_ok n /\ media_class n = EPISODE)
  /\ (_build_artist guess_type c item false = Ok n ->
      child_ok n /\ media_class n = ARTIST)
  /\ (_build_album guess_type c item false = Ok n ->
      child_ok n /\ media_class n = ALBUM)
  /\ (_build_series guess_type c item false = Ok n ->
      child_ok n /\ media_class n = TV_SHOW)
  /\ (_build_season guess_type c item false = Ok n ->
      child_ok n /\ media_class n = TV_SHOW)
  /\ (_build_library guess_type c item false = Ok n ->
      child_ok n /\ media_class n = DIRECTORY).
Proof using Type.
  unfold _build_track, _build_movie, _build_episode, _build_artist,
    _build_album, _build_series, _build_season, _build_library,
    _build_music_library, _build_movie_library, _build_tv_library,
    child_ok, node_ok.
  repeat split; run_monad; done.
Qed.

Lemma containers_children_ok kind parent nodes :
  build_containers guess_type kind c parent = Ok nodes ->
  Forall (fun n =>
            child_ok n
            /\ media_class n = match kind with
                               | Artists => ARTIST
                               | Albums => ALBUM
                               | Shows | Seasons => TV_SHOW
                               end) nodes.
Proof using Type.
  rewrite build_containers_unfold. intros Hb.
  apply bind_Ok_inv in Hb as (items & _ & Ht).
  eapply traverse_Forall; [|exact Ht]. intros item n Hn.
  destruct (constructors_child_ok item n) as (_&_&_&Har&Hal&Hse&Hsn&_).
  destruct kind; auto.
Qed.

Lemma leaves_children_ok kind parent nodes :
  build_leaves guess_type kind c parent = Ok nodes ->
  Forall (fun n => child_ok n /\ media_class n = leaf_class kind) nodes.
Proof using Type.
  rewrite build_leaves_unfold. intros Hb.
  apply bind_Ok_inv in Hb as (items & _ & Ht).
  eapply traverse_Forall; [|exact Ht]. intros item n Hn.
  destruct (constructors_child_ok item n) as (Htr&Hmo&Hep&_).
  destruct kind; auto.
Qed.

Lemma Forall_and_split {A} (P Q : A -> Prop) l :
  Forall (fun x => P x /\ Q x) l -> Forall P l /\ Forall Q l.
Proof using Type.
  induction 1 as [|x l [? ?] _ [? ?]]; split; constructor; assumption.
Qed.

(** The tree of a parent built with its children. *)
Ltac parent_tree B cls :=
  let Hb := fresh "Hb" in
  let Hcs := fresh "Hcs" in
  intros Hb;
  destruct (Id _) as [id|]; [|discriminate]; simpl in Hb;
  destruct (Name _) as [nm|]; [|discriminate]; simpl in Hb;
  try (destruct (_get_thumbnail_url c _) as [t|]; [|discriminate];
       simpl in Hb);
  destruct (B id) as [cs|] eqn:Hcs; [|discriminate]; simpl in Hb;
  injection Hb as <-;
  split; [|simpl; eauto];
  split; [repeat split; done |];
  exists cls, cs; split; [reflexivity |]; split; [reflexivity |].

Lemma parents_tree item node :
  _build_artist guess_type c item true = Ok node
  \/ _build_album guess_type c item true = Ok node
  \/ _build_series guess_type c item true = Ok node
  \/ _build_season guess_type c item true = Ok node
  \/ _build_music_library guess_type c item true = Ok node
  \/ _build_movie_library guess_type c item true = Ok node
  \/ _build_tv_library guess_type c item true = Ok node ->
  tree_ok node /\ is_Some (identifier node).
Proof using Type.
  unfold _build_artist, _build_album, _build_series, _build_season,
    _build_music_library, _build_movie_library, _build_tv_library, tree_ok,
    node_ok.
  intros [Hb|[Hb|[Hb|[Hb|[Hb|[Hb|Hb]]]]]]; revert Hb.
  - parent_tree (_build_albums guess_type c) ALBUM.
    by apply Forall_and_split, (containers_children_ok Albums id).
  - parent_tree (_build_tracks guess_type c) TRACK.
    by apply Forall_and_split, (leaves_children_ok Tracks id).
  - parent_tree (_build_seasons guess_type c) SEASON.
    by apply Forall_and_split, (containers_children_ok Seasons id).
  - parent_tree (_build_episodes guess_type c) EPISODE.
    by apply Forall_and_split, (leaves_children_ok Episodes id).
  - intros Hb.
    destruct (Id item) as [id|]; [|discriminate]. simpl in Hb.
    destruct (Name item) as [nm|]; [|discriminate]. simpl in Hb.
    destruct (_build_artists guess_type c id) as [[|a artists]|] eqn:Har;
      [| |discriminate]; simpl in Hb.
    + destruct (_build_albums guess_type c id) as [cs|] eqn:Hcs;
        [|discriminate]. simpl in Hb. injection Hb as <-.
      split; [|simpl; eauto]. split; [repeat split; done |].
      exists ALBUM, cs. split; [reflexivity |]. split; [reflexivity |].
      by apply Forall_and_split, (containers_children_ok Albums id).
    + injection Hb as <-.
      split; [|simpl; eauto]. split; [repeat split; done |].
      exists ARTIST, (a :: artists). split; [reflexivity |].
      split; [reflexivity |].
      by apply Forall_and_split, (containers_children_ok Artists id).
  - parent_tree (_build_movies guess_type c) MOVIE.
    by apply Forall_and_split, (leaves_children_ok Movies id).
  - parent_tree (_build_tvshow guess_type c) TV_SHOW.
    by apply Forall_and_split, (containers_children_ok Shows id).
Qed.

Lemma _build_library_cases item b :
  _build_library guess_type c item b = Err (KeyError ITEM_KEY_COLLECTION_TYPE)
  \/ _build_library guess_type c item b
     = _build_music_library guess_type c item b
  \/ _build_library guess_type c item b
     = _build_movie_library guess_type c item b
  \/ _build_library guess_type c item b = _build_tv_library guess_type c item b.
Proof using Type.
  unfold _build_library. destruct (CollectionType item); simpl; [|by left].
  repeat case_match; auto.
Qed.

Lemma _build_libraries_tree node :
  _build_libraries guess_type c = Ok node ->
  tree_ok node /\ identifier node = None.
Proof using Type.
  unfold _build_libraries. intros Hb.
  apply bind_Ok_inv in Hb as (libraries & _ & Hb).
  apply bind_Ok_inv in Hb as (nodes & Hnodes & [= <-]).
  split; [|reflexivity]. split; [repeat split; done |].
  exists DIRECTORY, nodes. split; [reflexivity |]. split; [reflexivity |].
  apply Forall_and_split. eapply traverse_Forall; [|exact Hnodes].
  intros library n Hn. by apply (constructors_child_ok library n).
Qed.

(** *** Failures *)

Lemma _get_children_Err parent type e :
  _get_children c parent type = Err e -> benign e.
Proof using Type.
  unfold _get_children, client_raised.
  destruct (user_items c "" _) as [[[items|]]|e'] eqn:Hu; simpl;
    intros [= <-]; eauto 10.
Qed.

Lemma containers_Err kind parent e :
  build_containers guess_type kind c parent = Err e -> benign e.
Proof using Type.
  rewrite build_containers_unfold.
  destruct (_get_children c parent _) as [items|e'] eqn:Hg; simpl.
  - intros Ht. apply traverse_Err_inv in Ht as (item & _ & Hi).
    left. apply (constructors_Err guess_type c item e).
    destruct kind; tauto.
  - intros [= <-]. by apply _get_children_Err in Hg.
Qed.

Lemma leaves_Err kind parent e :
  build_leaves guess_type kind c parent = Err e -> benign e.
Proof using Type.
  rewrite build_leaves_unfold.
  destruct (_get_children c parent _) as [items|e'] eqn:Hg; simpl.
  - intros Ht. apply traverse_Err_inv in Ht as (item & _ & Hi).
    left. apply (constructors_Err guess_type c item e).
    destruct kind; tauto.
  - intros [= <-]. by apply _get_children_Err in Hg.
Qed.

Ltac parent_Err B lemma :=
  let Hb := fresh "Hb" in
  let Hcs := fresh "Hcs" in
  let Ht := fresh "Ht" in
  intros Hb;
  destruct (Id _) as [id|]; [|injection Hb as <-; eauto]; simpl in Hb;
  destruct (Name _) as [nm|]; [|injection Hb as <-; eauto]; simpl in Hb;
  try (destruct (_get_thumbnail_url c _) as [t|e'] eqn:Ht;
       [|injection Hb as <-; apply _get_thumbnail_url_Err in Ht; eauto];
       simpl in Hb);
  destruct (B id) as [cs|e''] eqn:Hcs; [discriminate |];
  injection Hb as <-; exact (lemma id e'' Hcs).

Lemma parents_Err item e :
  _build_artist guess_type c item true = Err e
  \/ _build_album guess_type c item true = Err e
  \/ _build_series guess_type c item true = Err e
  \/ _build_season guess_type c item true = Err e
  \/ _build_music_library guess_type c item true = Err e
  \/ _build_movie_library guess_type c item true = Err e
  \/ _build_tv_library guess_type c item true = Err e ->
  benign e.
Proof using Type.
  unfold _build_artist, _build_album, _build_series, _build_season,
    _build_music_library, _build_movie_library, _build_tv_library.
  intros [Hb|[Hb|[Hb|[Hb|[Hb|[Hb|Hb]]]]]]; revert Hb.
  - parent_Err (_build_albums guess_type c) (containers_Err Albums).
  - parent_Err (_build_tracks guess_type c) (leaves_Err Tracks).
  - parent_Err (_build_seasons guess_type c) (containers_Err Seasons).
  - parent_Err (_build_episodes guess_type c) (leaves_Err Episodes).
  - intros Hb.
    destruct (Id item) as [id|]; [|injection Hb as <-; eauto]. simpl in Hb.
    destruct (Name item) as [nm|]; [|injection Hb as <-; eauto]. simpl in Hb.
    destruct (_build_artists guess_type c id) as [[|a artists]|e'] eqn:Har;
      simpl in Hb; [|discriminate|].
    + destruct (_build_albums guess_type c id) as [cs|e''] eqn:Hcs;
        [discriminate |]. injection Hb as <-.
      exact (containers_Err Albums id e'' Hcs).
    + injection Hb as <-. exact (containers_Err Artists id e' Har).
  - parent_Err (_build_movies guess_type c) (leaves_Err Movies).
  - parent_Err (_build_tvshow guess_type c) (containers_Err Shows).
Qed.

Lemma _build_library_Err item b e :
  _build_library guess_type c item b = Err e -> benign e.
Proof using Type.
  destruct b.
  - destruct (_build_library_cases item true) as [Hl|[Hl|[Hl|Hl]]];
      rewrite Hl; [intros [= <-]; eauto | | |];
      intros Hb; apply (parents_Err item e); tauto.
  - unfold _build_library, _build_music_library, _build_movie_library,
      _build_tv_library. intros Hb. left. run_monad.
Qed.

Lemma _build_libraries_Err e :
  _build_libraries guess_type c = Err e -> benign e.
Proof using Type.
  unfold _build_libraries, _get_libraries.
  destruct (get_media_folders c) as [[[folders|]]|e'] eqn:Hf; simpl.
  - destruct (traverse _ _) as [nodes|e'] eqn:Ht; simpl; [discriminate |].
    intros [= <-]. apply traverse_Err_inv in Ht as (library & _ & Hl).
    by apply _build_library_Err in Hl.
  - intros [= <-]. left. eauto.
  - intros [= <-]. right. unfold client_raised. auto.
Qed.
End TreeFacts.

(** X12. Whatever [browse] returns is a tree one level deep: the node is
    of this domain, expandable and not playable or playable and not
    expandable, playable exactly when a track, movie or episode; it
    announces a class for its children and carries their list; every
    child has an identifier, the same shape and no children of its own,
    and is of the announced class, except that the children of a series
    are of the class of a show.  The node has no identifier exactly when
    the request has none. *)
Theorem browse_tree `{Const} (guess_type : string -> option string)
    (self : JellyfinSource) (item : MediaSourceItem) (node : BrowseMediaSource) :
  async_browse_media guess_type self item = Ok node ->
  tree_ok node
  /\ (identifier node = None <-> item_identifier item = "").
Proof.
  unfold async_browse_media.
  destruct (client self) as [[c|]|]; simpl; [|discriminate|discriminate].
  destruct (String.eqb_spec (item_identifier item) "") as [Hid|Hid].
  - intros Hb. apply _build_libraries_tree in Hb as [Ht Hnone]. by split.
  - destruct (get_item c (item_identifier item)) as [media_item|]; simpl;
      [|discriminate].
    destruct (Type_ media_item) as [item_type|]; simpl; [|discriminate].
    intros Hb.
    assert (Hp : tree_ok node /\ is_Some (identifier node)).
    { repeat case_match; try discriminate;
        try (apply (parents_tree guess_type c media_item node); tauto).
      destruct (_build_library_cases guess_type c media_item true)
        as [Hl|[Hl|[Hl|Hl]]]; rewrite Hl in Hb; [discriminate | | |];
        apply (parents_tree guess_type c media_item node); tauto. }
    destruct Hp as [Ht [id Hsome]]. split; [assumption |].
    rewrite Hsome. split; [discriminate | contradiction].
Qed.

Lemma browse_tree_witness :
  exists node,
    async_browse_media (H := sample_const) sample_guess_type sample_source
      (mkMediaSourceItem "series1") = Ok node
    /\ tree_ok (H := sample_const) node
    /\ identifier node <> None.
Proof.
  eexists. split; [vm_compute; reflexivity |].
  destruct (browse_tree (H := sample_const) sample_guess_type sample_source
              (mkMediaSourceItem "series1")
              (mkBrowse "jellyfin" (Some "series1") TV_SHOW (Some "") "Show"
                 false true None (Some SEASON)
                 (Some [mkBrowse "jellyfin" (Some "season1") TV_SHOW (Some "")
                          "Season 1" false true None None None])))
    as [Htree Hid]; [vm_compute; reflexivity |].
  split; [exact Htree | discriminate].
Defined.

(** X13. Every failure of [browse] is one of: the [BrowseError] for want
    of a client; the [BrowseError] naming the type of a fetched item that
    is none of the five browsable types; a [KeyError] of a subscription;
    an exception the client raised. *)
Theorem browse_failures `{Const} (guess_type : string -> option string)
    (self : JellyfinSource) (item : MediaSourceItem) (e : exn) :
  async_browse_media guess_type self item = Err e ->
  (client self = Ok None /\ e = BrowseError "Jellyfin not initialized")
  \/ (exists c media_item item_type,
        client self = Ok (Some c)
        /\ get_item c (item_identifier item) = Ok media_item
        /\ Type_ media_item = Some item_type
        /\ (item_type ∉ [ITEM_TYPE_LIBRARY; ITEM_TYPE_ARTIST; ITEM_TYPE_ALBUM;
                         ITEM_TYPE_SERIES; ITEM_TYPE_SEASON])
        /\ e = BrowseError ("Unsupported item type " ++ item_type))
  \/ (exists k, e = KeyError k)
  \/ (exists c, client self = Ok (Some c) /\ client_raised c e).
Proof.
  unfold async_browse_media.
  destruct (client self) as [[c|]|e0] eqn:Hc; simpl.
  - assert (Hbenign : forall e',
              (exists k, e' = KeyError k) \/ client_raised c e' ->
              (exists k, e' = KeyError k)
              \/ (exists c', Ok (Some c) = Ok (Some c') /\ client_raised c' e')).
    { intros e' [Hk|Hr]; eauto. }
    destruct (String.eqb_spec (item_identifier item) "") as [Hid|Hid].
    + intros Hb. apply _build_libraries_Err in Hb. right. right. auto.
    + destruct (get_item c (item_identifier item)) as [media_item|e1] eqn:Hget;
        simpl.
      2: { intros [= <-]. do 3 right. exists c. split; [reflexivity |].
           left. eauto. }
      destruct (Type_ media_item) as [item_type|] eqn:Htype; simpl;
        [|intros [= <-]; eauto 10].
      destruct (String.eqb_spec item_type ITEM_TYPE_LIBRARY).
      { intros Hb. apply _build_library_Err in Hb. right. right. auto. }
      destruct (String.eqb_spec item_type ITEM_TYPE_ARTIST).
      { intros Hb. right. right. apply Hbenign.
        apply (parents_Err guess_type c media_item e). tauto. }
      destruct (String.eqb_spec item_type ITEM_TYPE_ALBUM).
      { intros Hb. right. right. apply Hbenign.
        apply (parents_Err guess_type c media_item e). tauto. }
      destruct (String.eqb_spec item_type ITEM_TYPE_SERIES).
      { intros Hb. right. right. apply Hbenign.
        apply (parents_Err guess_type c media_item e). tauto. }
      destruct (String.eqb_spec item_type ITEM_TYPE_SEASON).
      { intros Hb. right. right. apply Hbenign.
        apply (parents_Err guess_type c media_item e). tauto. }
      intros [= <-]. right. left. exists c, media_item, item_type.
      repeat split; try done. rewrite !not_elem_of_cons.
      repeat split; try done. apply not_elem_of_nil.
  - intros [= <-]. by left.
  - intros [= <-]. apply client_Err in Hc. eauto.
Qed.

Lemma browse_failures_witness :
  exists c,
    client (H := sample_const) failing_source = Ok (Some c)
    /\ client_raised c (ClientError "connection refused").
Proof.
  destruct (browse_failures (H := sample_const) sample_guess_type failing_source
              (mkMediaSourceItem "album1") (ClientError "connection refused"))
    as [[_ [=]]|[Hu|[[k [=]]|Hr]]]; [vm_compute; reflexivity | |exact Hr].
  destruct Hu as (c & mi & t & _ & _ & _ & _ & [=]).
Defined.

(** ** From a browsed leaf to its stream *)




(** ** More on the sort *)

Lemma filter_filter_comm {A} (f g : A -> bool) l :
  List.filter f (List.filter g l) = List.filter g (List.filter f l).
Proof.
  induction l as [|x l IH]; simpl; [reflexivity |].
  destruct (f x) eqn:Hf, (g x) eqn:Hg; simpl; rewrite ?Hf, ?Hg, IH; reflexivity.
Qed.

Section SortedLaws.
Context {A K : Type} `{EqDecision K}.
Variable lt : K -> K -> bool.
Variable key_of : A -> K.

Hypothesis lt_irrefl : forall a, lt (key_of a) (key_of a) = false.
Hypothesis lt_trans : forall a b c,
  lt (key_of a) (key_of b) = true -> lt (key_of b) (key_of c) = true ->
  lt (key_of a) (key_of c) = true.
Hypothesis lt_total : forall a b,
  lt (key_of a) (key_of b) = false -> lt (key_of b) (key_of a) = false ->
  key_of a = key_of b.

(** A sorted list is left as it is. *)
Lemma sorted_of_sorted l :
  StronglySorted (key_le lt key_of) l -> sorted lt key_of l = l.
Proof using All.
  intros Hs. symmetry.
  by apply (stable_sort_unique lt key_of lt_irrefl lt_trans lt_total).
Qed.

(** Filtering the sorted list is sorting the filtered list. *)
Lemma sorted_filter_commute (f : A -> bool) l :
  List.filter f (sorted lt key_of l) = sorted lt key_of (List.filter f l).
Proof using All.
  apply (stable_sort_unique lt key_of lt_irrefl lt_trans lt_total).
  - by apply StronglySorted_filter, sorted_StronglySorted.
  - intros k. rewrite filter_filter_comm.
    rewrite (sorted_stable lt key_of lt_irrefl).
    apply filter_filter_comm.
Qed.
End SortedLaws.

Lemma sorted_by_index_StronglySorted items :
  StronglySorted (key_le (tuple_lt Z.ltb) index_key) (sorted_by_index items).
Proof.
  apply sorted_StronglySorted.
  - apply (field_lt_irrefl Z.ltb IndexNumber); [done | exact Z.ltb_irrefl].
  - apply (field_lt_trans Z.ltb IndexNumber); [done | exact Z_ltb_trans].
  - apply (field_lt_total Z.ltb IndexNumber); [done | exact Z_ltb_total].
Qed.

(** X15. A fetched list that is already in the order of the sort key is
    left as it is, items of equal key included; sorting twice is sorting
    once. *)
Theorem sorted_response_kept (l : list Item) :
  (StronglySorted (key_le (tuple_lt String.ltb) name_key) l ->
   sorted_by_name l = l)
  /\ (StronglySorted (key_le (tuple_lt Z.ltb) index_key) l ->
      sorted_by_index l = l)
  /\ sorted_by_name (sorted_by_name l) = sorted_by_name l
  /\ sorted_by_index (sorted_by_index l) = sorted_by_index l.
Proof.
  assert (Hname : forall l',
            StronglySorted (key_le (tuple_lt String.ltb) name_key) l' ->
            sorted_by_name l' = l').
  { intros l'. apply sorted_of_sorted.
    - apply (field_lt_irrefl String.ltb Name); [done | exact string_ltb_irrefl].
    - apply (field_lt_trans String.ltb Name); [done | exact string_ltb_trans].
    - apply (field_lt_total String.ltb Name); [done | exact string_ltb_total]. }
  assert (Hindex : forall l',
            StronglySorted (key_le (tuple_lt Z.ltb) index_key) l' ->
            sorted_by_index l' = l').
  { intros l'. apply sorted_of_sorted.
    - apply (field_lt_irrefl Z.ltb IndexNumber); [done | exact Z.ltb_irrefl].
    - apply (field_lt_trans Z.ltb IndexNumber); [done | exact Z_ltb_trans].
    - apply (field_lt_total Z.ltb IndexNumber); [done | exact Z_ltb_total]. }
  repeat split; auto using sorted_by_name_StronglySorted,
    sorted_by_index_StronglySorted.
Qed.

Lemma sorted_response_kept_witness :
  sorted_by_name [album_A; album_B; album_unnamed]
  = [album_A; album_B; album_unnamed].
Proof.
  destruct (sorted_response_kept [album_A; album_B; album_unnamed])
    as [Hname _].
  apply Hname. repeat constructor.
Defined.

(** X16. In the leaf builders, sorting the fetched items and then
    dropping those without a derivable MIME type gives the list that
    dropping them first and then sorting gives: the items dropped have no
    influence on the order of the others. *)
Theorem filter_after_sort `{Const} (guess_type : string -> option string)
    (c : JellyfinClient) (parent : string) (kind : leaf_kind) (items : list Item) :
  List.filter (playable guess_type) (leaf_sorted kind items)
  = leaf_sorted kind (List.filter (playable guess_type) items)
  /\ (_get_children c parent (leaf_item_type kind) = Ok items ->
      build_leaves guess_type kind c parent
      = traverse
          match kind with
          | Tracks => _build_track guess_type c
          | Movies => _build_movie guess_type c
          | Episodes => _build_episode guess_type c
          end
          (leaf_sorted kind (List.filter (playable guess_type) items))).
Proof.
  assert (Hcomm : List.filter (playable guess_type) (leaf_sorted kind items)
                  = leaf_sorted kind (List.filter (playable guess_type) items)).
  { destruct kind; apply sorted_filter_commute.
    - apply (field_lt_irrefl Z.ltb IndexNumber); [done | exact Z.ltb_irrefl].
    - apply (field_lt_trans Z.ltb IndexNumber); [done | exact Z_ltb_trans].
    - apply (field_lt_total Z.ltb IndexNumber); [done | exact Z_ltb_total].
    - apply (field_lt_irrefl String.ltb Name); [done | exact string_ltb_irrefl].
    - apply (field_lt_trans String.ltb Name); [done | exact string_ltb_trans].
    - apply (field_lt_total String.ltb Name); [done | exact string_ltb_total].
    - apply (field_lt_irrefl Z.ltb IndexNumber); [done | exact Z.ltb_irrefl].
    - apply (field_lt_trans Z.ltb IndexNumber); [done | exact Z_ltb_trans].
    - apply (field_lt_total Z.ltb IndexNumber); [done | exact Z_ltb_total]. }
  split; [exact Hcomm |].
  intros Hg. rewrite build_leaves_unfold, Hg. simpl. by rewrite Hcomm.
Qed.

Lemma filter_after_sort_witness :
  _build_tracks (H := sample_const) sample_guess_type sample_client "album1"
  = traverse (_build_track (H := sample_const) sample_guess_type sample_client)
      (sorted_by_index
         (List.filter (playable sample_guess_type) [track_bare; track_1])).
Proof.
  by apply (filter_after_sort (H := sample_const) sample_guess_type sample_client
              "album1" Tracks [track_bare; track_1]).
Defined.

(** ** The root *)

(** X17. The root is built from the folder listing alone: two clients
    that list the same folders give the same root, or raise the same
    exception, whatever else they answer; no child of the root costs a
    query. *)
Theorem root_from_folders `{Const} (guess_type : string -> option string)
    (c1 c2 : JellyfinClient) :
  get_media_folders c1 = get_media_folders c2 ->
  _build_libraries guess_type c1 = _build_libraries guess_type c2.
Proof.
  intros Hf. unfold _build_libraries, _get_libraries. rewrite Hf.
  destruct (get_media_folders c2) as [[[folders|]]|]; simpl; reflexivity.
Qed.

Lemma root_from_folders_witness :
  _build_libraries (H := sample_const) sample_guess_type folders_only_client
  = _build_libraries (H := sample_const) sample_guess_type sample_client.
Proof.
  by apply (root_from_folders (H := sample_const) sample_guess_type
              folders_only_client sample_client).
Defined.

